(** * Galaxy: an endless runner on a pseudo-3D track

    A shallow embedding of the simulation core of [game.py] (class
    [GalaxyGame]) and of [highscore.py].

    Conventions of the embedding.
    - Python [int] is [Z].  A Python [float] is a rational of [Q]; the
      decimal literals are the binary64 numbers nearest to them, and the
      arithmetic of the clock, the scroll offsets, the grid and the ship
      rounds each result to binary64 (to nearest, ties to even: [fadd],
      [fsub], [fmul], [fdiv]).  Overflow to infinity is not modelled.  The
      jump timers, the spawn probability, the projection and the level
      speed-up (whose [1.08 ** band] is the C library's [pow]) keep the
      rationals unrounded.
    - The object [self] is the record [Game]; a method is a function from
      [Game] to [Game] (plus a result where the method returns one).
      Canvas items, labels and audio calls carry no simulation state and are
      left out.
    - The module [random] is an oracle: a sequence of integers read through
      a cursor that is part of the state.
    - [gen_calls], [spawn_calls] and [progress_calls] are ghost counters:
      they are incremented on entry by [_generate_tiles_coordinates],
      [_maybe_spawn_obstacle] and [_update_tile_color_by_score], and read
      by nothing. *)

From Stdlib Require Import String ZArith QArith Qround Qpower List Bool Lia Lqa.
From Stdlib Require Import DecimalString.
Import ListNotations.

Open Scope Z_scope.

(** ** Floats *)

(** Comparisons of floats, as booleans. *)
Definition Qleb (a b : Q) : bool := Qle_bool a b.
Definition Qltb (a b : Q) : bool := negb (Qle_bool b a).

(** The binade of [a > 0]: [2 ^ flog2 a <= a < 2 ^ (flog2 a + 1)]. *)
Definition flog2 (a : Q) : Z :=
  let l := Z.log2 (Qnum a) - Z.log2 (Zpos (Qden a)) in
  if Qle_bool (2 ^ l) a then l else l - 1.

(** The exponent of the last bit of the 53-bit significand of [a > 0];
    below [2 ^ -1022] the numbers are subnormal and it stays at -1074. *)
Definition expo (a : Q) : Z := Z.max (flog2 a - 52) (-1074).

(** The integer nearest to [q], the even one of two that are as near. *)
Definition rne (q : Q) : Z :=
  let f := Qfloor q in
  match (q - inject_Z f ?= 1 # 2)%Q with
  | Lt => f
  | Gt => f + 1
  | Eq => if Z.even f then f else f + 1
  end.

Definition round64_pos (a : Q) : Q :=
  (inject_Z (rne (a / 2 ^ expo a)) * 2 ^ expo a)%Q.

(** The binary64 number nearest to [q], as a fraction in lowest terms. *)
Definition round64 (q : Q) : Q :=
  let q := Qred q in
  match (q ?= 0)%Q with
  | Eq => 0%Q
  | Gt => Qred (round64_pos q)
  | Lt => Qred (- round64_pos (- q))
  end.

(** The operators [+], [-], [*], [/] of two floats. *)
Definition fadd (a b : Q) : Q := round64 (a + b).
Definition fsub (a b : Q) : Q := round64 (a - b).
Definition fmul (a b : Q) : Q := round64 (a * b).
Definition fdiv (a b : Q) : Q := round64 (a / b).

(** [float(n)] for an [int] operand of a float operation. *)
Definition float_of_int (n : Z) : Q := round64 (inject_Z n).

(** ** Constants of [config.py] and of the class [GalaxyGame] *)

Definition WINDOW_WIDTH : Z := 1024.
Definition WINDOW_HEIGHT : Z := 800.

Definition V_NB_LINES : Z := 8.
Definition V_LINES_SPACING : Q := round64 (4 # 10).
Definition H_NB_LINES : Z := 8.
Definition H_LINES_SPACING : Q := round64 (15 # 100).
Definition NB_TILES : nat := 16.

Definition SHIP_WIDTH : Q := round64 (1 # 10).
Definition SHIP_HEIGHT : Q := round64 (35 # 1000).
Definition SHIP_BASE_Y : Q := round64 (4 # 100).

Definition COLLISION_START_LOOP : Z := 5.
Definition MAX_OBSTACLES : nat := 6.

Definition JUMP_DURATION : Q := round64 (6 # 10).
Definition JUMP_COOLDOWN : Q := round64 (3 # 10).

(** The three entries of the table [DIFFICULTIES]; the radio buttons of the
    menu offer exactly these names. *)
Inductive Difficulty : Type := Easy | Normal | Hard.

Definition DIFFICULTIES_speed (d : Difficulty) : Q :=
  round64 (match d with Easy => 6 # 10 | Normal => 8 # 10 | Hard => 11 # 10 end).

Definition DIFFICULTIES_speed_x (d : Difficulty) : Q :=
  round64 (match d with Easy => 25 # 10 | Normal => 35 # 10 | Hard => 45 # 10 end).

Definition tile_colors : list string :=
  ["#aaaaaa"; "#ffcc00"; "#00ff99"; "#00ccff"; "#ff66cc"; "#ff4444"]%string.

(** The slot of an obstacle that is not in play. *)
Definition SENTINEL : Z * Z := (-999, -999).

(** ** The random source *)

Record Rng : Type := { rng_src : nat -> Z; rng_pos : nat }.

Definition rng_draw (g : Rng) : Z * Rng :=
  (rng_src g (rng_pos g), {| rng_src := rng_src g; rng_pos := S (rng_pos g) |}).

(** [random.randint(a, b)]: an integer of [a..b]. *)
Definition randint (a b : Z) (g : Rng) : Z * Rng :=
  let (n, g') := rng_draw g in (a + n mod (b - a + 1), g').

(** [random.random()]: a multiple of [2^-53] in [0, 1). *)
Definition random (g : Rng) : Q * Rng :=
  let (n, g') := rng_draw g in (Qmake (n mod 2 ^ 53) (2 ^ 53), g').

(** [random.choice(seq)] on a sequence that is not empty. *)
Definition choice {A : Type} (d : A) (seq : list A) (g : Rng) : A * Rng :=
  let (n, g') := rng_draw g in
  (nth (Z.to_nat (n mod Z.of_nat (length seq))) seq d, g').

(** ** The high score file ([highscore.py]) *)

(** What can go wrong when the file is written: [open] raises, or [open]
    succeeds (and truncates the file) and [write] raises. *)
Inductive IoFault : Type := NoFault | OpenFails | WriteFails.

Record HighscoreFile : Type := {
  hf_content : option string;   (* [None]: the file does not exist *)
  hf_fault : IoFault
}.

(** [str(int(value))] *)
Definition str_int (value : Z) : string := NilZero.string_of_int (Z.to_int value).

(** [save_high_score]: the [try] swallows every exception, so the function
    always returns; its effect is the new state of the file. *)
Definition save_high_score (value : Z) (f : HighscoreFile) : HighscoreFile :=
  match hf_fault f with
  | OpenFails => f
  | WriteFails => {| hf_content := Some EmptyString; hf_fault := hf_fault f |}
  | NoFault => {| hf_content := Some (str_int value); hf_fault := hf_fault f |}
  end.

(** ** The state of the game *)

Record Game : Type := Build_Game {
  perspective_point_x : Q;        (* the vanishing point, fixed by [__init__] *)
  perspective_point_y : Q;
  tiles_coordinates : list (Z * Z);
  obstacle_coords : list (Z * Z);
  current_offset_y : Q;
  current_y_loop : Z;
  current_speed_x : Q;
  current_offset_x : Q;
  ship_coordinates : list (Q * Q);
  state_game_over : bool;
  state_game_has_started : bool;
  paused : bool;
  allow_collisions : bool;
  difficulty : Difficulty;
  diff_var : Difficulty;          (* the selection of the menu's radio buttons *)
  speed_y_base : Q;
  speed_x_base : Q;
  level : Z;
  high_score : Z;
  current_tile_color : string;
  jump_active : bool;
  jump_timer : Q;
  jump_cooldown_timer : Q;
  last_time : Q;
  rng : Rng;
  gen_calls : nat;                (* ghost: calls of the track generator *)
  spawn_calls : nat;              (* ghost: calls of the obstacle spawn *)
  progress_calls : nat;           (* ghost: calls of the progression update *)
  highscore_file : HighscoreFile
}.

(** Assignment to one attribute of [self]. *)

Definition set_tiles_coordinates (v : list (Z * Z)) (st : Game) : Game :=
  Build_Game (perspective_point_x st) (perspective_point_y st) v (obstacle_coords st)
    (current_offset_y st) (current_y_loop st) (current_speed_x st) (current_offset_x st)
    (ship_coordinates st) (state_game_over st) (state_game_has_started st) (paused st)
    (allow_collisions st) (difficulty st) (diff_var st) (speed_y_base st)
    (speed_x_base st) (level st) (high_score st) (current_tile_color st)
    (jump_active st) (jump_timer st) (jump_cooldown_timer st) (last_time st) (rng st)
    (gen_calls st) (spawn_calls st) (progress_calls st) (highscore_file st).

Definition set_obstacle_coords (v : list (Z * Z)) (st : Game) : Game :=
  Build_Game (perspective_point_x st) (perspective_point_y st) (tiles_coordinates st) v
    (current_offset_y st) (current_y_loop st) (current_speed_x st) (current_offset_x st)
    (ship_coordinates st) (state_game_over st) (state_game_has_started st) (paused st)
    (allow_collisions st) (difficulty st) (diff_var st) (speed_y_base st)
    (speed_x_base st) (level st) (high_score st) (current_tile_color st)
    (jump_active st) (jump_timer st) (jump_cooldown_timer st) (last_time st) (rng st)
    (gen_calls st) (spawn_calls st) (progress_calls st) (highscore_file st).

Definition set_current_offset_y (v : Q) (st : Game) : Game :=
  Build_Game (perspective_point_x st) (perspective_point_y st) (tiles_coordinates st)
    (obstacle_coords st) v (current_y_loop st) (current_speed_x st)
    (current_offset_x st) (ship_coordinates st) (state_game_over st)
    (state_game_has_started st) (paused st) (allow_collisions st) (difficulty st)
    (diff_var st) (speed_y_base st) (speed_x_base st) (level st) (high_score st)
    (current_tile_color st) (jump_active st) (jump_timer st) (jump_cooldown_timer st)
    (last_time st) (rng st) (gen_calls st) (spawn_calls st) (progress_calls st)
    (highscore_file st).

Definition set_current_y_loop (v : Z) (st : Game) : Game :=
  Build_Game (perspective_point_x st) (perspective_point_y st) (tiles_coordinates st)
    (obstacle_coords st) (current_offset_y st) v (current_speed_x st)
    (current_offset_x st) (ship_coordinates st) (state_game_over st)
    (state_game_has_started st) (paused st) (allow_collisions st) (difficulty st)
    (diff_var st) (speed_y_base st) (speed_x_base st) (level st) (high_score st)
    (current_tile_color st) (jump_active st) (jump_timer st) (jump_cooldown_timer st)
    (last_time st) (rng st) (gen_calls st) (spawn_calls st) (progress_calls st)
    (highscore_file st).

Definition set_current_speed_x (v : Q) (st : Game) : Game :=
  Build_Game (perspective_point_x st) (perspective_point_y st) (tiles_coordinates st)
    (obstacle_coords st) (current_offset_y st) (current_y_loop st) v
    (current_offset_x st) (ship_coordinates st) (state_game_over st)
    (state_game_has_started st) (paused st) (allow_collisions st) (difficulty st)
    (diff_var st) (speed_y_base st) (speed_x_base st) (level st) (high_score st)
    (current_tile_color st) (jump_active st) (jump_timer st) (jump_cooldown_timer st)
    (last_time st) (rng st) (gen_calls st) (spawn_calls st) (progress_calls st)
    (highscore_file st).

Definition set_current_offset_x (v : Q) (st : Game) : Game :=
  Build_Game (perspective_point_x st) (perspective_point_y st) (tiles_coordinates st)
    (obstacle_coords st) (current_offset_y st) (current_y_loop st) (current_speed_x st)
    v (ship_coordinates st) (state_game_over st) (state_game_has_started st) (paused st)
    (allow_collisions st) (difficulty st) (diff_var st) (speed_y_base st)
    (speed_x_base st) (level st) (high_score st) (current_tile_color st)
    (jump_active st) (jump_timer st) (jump_cooldown_timer st) (last_time st) (rng st)
    (gen_calls st) (spawn_calls st) (progress_calls st) (highscore_file st).

Definition set_ship_coordinates (v : list (Q * Q)) (st : Game) : Game :=
  Build_Game (perspective_point_x st) (perspective_point_y st) (tiles_coordinates st)
    (obstacle_coords st) (current_offset_y st) (current_y_loop st) (current_speed_x st)
    (current_offset_x st) v (state_game_over st) (state_game_has_started st) (paused st)
    (allow_collisions st) (difficulty st) (diff_var st) (speed_y_base st)
    (speed_x_base st) (level st) (high_score st) (current_tile_color st)
    (jump_active st) (jump_timer st) (jump_cooldown_timer st) (last_time st) (rng st)
    (gen_calls st) (spawn_calls st) (progress_calls st) (highscore_file st).

Definition set_state_game_over (v : bool) (st : Game) : Game :=
  Build_Game (perspective_point_x st) (perspective_point_y st) (tiles_coordinates st)
    (obstacle_coords st) (current_offset_y st) (current_y_loop st) (current_speed_x st)
    (current_offset_x st) (ship_coordinates st) v (state_game_has_started st)
    (paused st) (allow_collisions st) (difficulty st) (diff_var st) (speed_y_base st)
    (speed_x_base st) (level st) (high_score st) (current_tile_color st)
    (jump_active st) (jump_timer st) (jump_cooldown_timer st) (last_time st) (rng st)
    (gen_calls st) (spawn_calls st) (progress_calls st) (highscore_file st).

Definition set_state_game_has_started (v : bool) (st : Game) : Game :=
  Build_Game (perspective_point_x st) (perspective_point_y st) (tiles_coordinates st)
    (obstacle_coords st) (current_offset_y st) (current_y_loop st) (current_speed_x st)
    (current_offset_x st) (ship_coordinates st) (state_game_over st) v (paused st)
    (allow_collisions st) (difficulty st) (diff_var st) (speed_y_base st)
    (speed_x_base st) (level st) (high_score st) (current_tile_color st)
    (jump_active st) (jump_timer st) (jump_cooldown_timer st) (last_time st) (rng st)
    (gen_calls st) (spawn_calls st) (progress_calls st) (highscore_file st).

Definition set_paused (v : bool) (st : Game) : Game :=
  Build_Game (perspective_point_x st) (perspective_point_y st) (tiles_coordinates st)
    (obstacle_coords st) (current_offset_y st) (current_y_loop st) (current_speed_x st)
    (current_offset_x st) (ship_coordinates st) (state_game_over st)
    (state_game_has_started st) v (allow_collisions st) (difficulty st) (diff_var st)
    (speed_y_base st) (speed_x_base st) (level st) (high_score st)
    (current_tile_color st) (jump_active st) (jump_timer st) (jump_cooldown_timer st)
    (last_time st) (rng st) (gen_calls st) (spawn_calls st) (progress_calls st)
    (highscore_file st).

Definition set_allow_collisions (v : bool) (st : Game) : Game :=
  Build_Game (perspective_point_x st) (perspective_point_y st) (tiles_coordinates st)
    (obstacle_coords st) (current_offset_y st) (current_y_loop st) (current_speed_x st)
    (current_offset_x st) (ship_coordinates st) (state_game_over st)
    (state_game_has_started st) (paused st) v (difficulty st) (diff_var st)
    (speed_y_base st) (speed_x_base st) (level st) (high_score st)
    (current_tile_color st) (jump_active st) (jump_timer st) (jump_cooldown_timer st)
    (last_time st) (rng st) (gen_calls st) (spawn_calls st) (progress_calls st)
    (highscore_file st).

Definition set_difficulty (v : Difficulty) (st : Game) : Game :=
  Build_Game (perspective_point_x st) (perspective_point_y st) (tiles_coordinates st)
    (obstacle_coords st) (current_offset_y st) (current_y_loop st) (current_speed_x st)
    (current_offset_x st) (ship_coordinates st) (state_game_over st)
    (state_game_has_started st) (paused st) (allow_collisions st) v (diff_var st)
    (speed_y_base st) (speed_x_base st) (level st) (high_score st)
    (current_tile_color st) (jump_active st) (jump_timer st) (jump_cooldown_timer st)
    (last_time st) (rng st) (gen_calls st) (spawn_calls st) (progress_calls st)
    (highscore_file st).

Definition set_diff_var (v : Difficulty) (st : Game) : Game :=
  Build_Game (perspective_point_x st) (perspective_point_y st) (tiles_coordinates st)
    (obstacle_coords st) (current_offset_y st) (current_y_loop st) (current_speed_x st)
    (current_offset_x st) (ship_coordinates st) (state_game_over st)
    (state_game_has_started st) (paused st) (allow_collisions st) (difficulty st) v
    (speed_y_base st) (speed_x_base st) (level st) (high_score st)
    (current_tile_color st) (jump_active st) (jump_timer st) (jump_cooldown_timer st)
    (last_time st) (rng st) (gen_calls st) (spawn_calls st) (progress_calls st)
    (highscore_file st).

Definition set_speed_y_base (v : Q) (st : Game) : Game :=
  Build_Game (perspective_point_x st) (perspective_point_y st) (tiles_coordinates st)
    (obstacle_coords st) (current_offset_y st) (current_y_loop st) (current_speed_x st)
    (current_offset_x st) (ship_coordinates st) (state_game_over st)
    (state_game_has_started st) (paused st) (allow_collisions st) (difficulty st)
    (diff_var st) v (speed_x_base st) (level st) (high_score st) (current_tile_color st)
    (jump_active st) (jump_timer st) (jump_cooldown_timer st) (last_time st) (rng st)
    (gen_calls st) (spawn_calls st) (progress_calls st) (highscore_file st).

Definition set_speed_x_base (v : Q) (st : Game) : Game :=
  Build_Game (perspective_point_x st) (perspective_point_y st) (tiles_coordinates st)
    (obstacle_coords st) (current_offset_y st) (current_y_loop st) (current_speed_x st)
    (current_offset_x st) (ship_coordinates st) (state_game_over st)
    (state_game_has_started st) (paused st) (allow_collisions st) (difficulty st)
    (diff_var st) (speed_y_base st) v (level st) (high_score st) (current_tile_color st)
    (jump_active st) (jump_timer st) (jump_cooldown_timer st) (last_time st) (rng st)
    (gen_calls st) (spawn_calls st) (progress_calls st) (highscore_file st).

Definition set_level (v : Z) (st : Game) : Game :=
  Build_Game (perspective_point_x st) (perspective_point_y st) (tiles_coordinates st)
    (obstacle_coords st) (current_offset_y st) (current_y_loop st) (current_speed_x st)
    (current_offset_x st) (ship_coordinates st) (state_game_over st)
    (state_game_has_started st) (paused st) (allow_collisions st) (difficulty st)
    (diff_var st) (speed_y_base st) (speed_x_base st) v (high_score st)
    (current_tile_color st) (jump_active st) (jump_timer st) (jump_cooldown_timer st)
    (last_time st) (rng st) (gen_calls st) (spawn_calls st) (progress_calls st)
    (highscore_file st).

Definition set_high_score (v : Z) (st : Game) : Game :=
  Build_Game (perspective_point_x st) (perspective_point_y st) (tiles_coordinates st)
    (obstacle_coords st) (current_offset_y st) (current_y_loop st) (current_speed_x st)
    (current_offset_x st) (ship_coordinates st) (state_game_over st)
    (state_game_has_started st) (paused st) (allow_collisions st) (difficulty st)
    (diff_var st) (speed_y_base st) (speed_x_base st) (level st) v
    (current_tile_color st) (jump_active st) (jump_timer st) (jump_cooldown_timer st)
    (last_time st) (rng st) (gen_calls st) (spawn_calls st) (progress_calls st)
    (highscore_file st).

Definition set_current_tile_color (v : string) (st : Game) : Game :=
  Build_Game (perspective_point_x st) (perspective_point_y st) (tiles_coordinates st)
    (obstacle_coords st) (current_offset_y st) (current_y_loop st) (current_speed_x st)
    (current_offset_x st) (ship_coordinates st) (state_game_over st)
    (state_game_has_started st) (paused st) (allow_collisions st) (difficulty st)
    (diff_var st) (speed_y_base st) (speed_x_base st) (level st) (high_score st) v
    (jump_active st) (jump_timer st) (jump_cooldown_timer st) (last_time st) (rng st)
    (gen_calls st) (spawn_calls st) (progress_calls st) (highscore_file st).

Definition set_jump_active (v : bool) (st : Game) : Game :=
  Build_Game (perspective_point_x st) (perspective_point_y st) (tiles_coordinates st)
    (obstacle_coords st) (current_offset_y st) (current_y_loop st) (current_speed_x st)
    (current_offset_x st) (ship_coordinates st) (state_game_over st)
    (state_game_has_started st) (paused st) (allow_collisions st) (difficulty st)
    (diff_var st) (speed_y_base st) (speed_x_base st) (level st) (high_score st)
    (current_tile_color st) v (jump_timer st) (jump_cooldown_timer st) (last_time st)
    (rng st) (gen_calls st) (spawn_calls st) (progress_calls st) (highscore_file st).

Definition set_jump_timer (v : Q) (st : Game) : Game :=
  Build_Game (perspective_point_x st) (perspective_point_y st) (tiles_coordinates st)
    (obstacle_coords st) (current_offset_y st) (current_y_loop st) (current_speed_x st)
    (current_offset_x st) (ship_coordinates st) (state_game_over st)
    (state_game_has_started st) (paused st) (allow_collisions st) (difficulty st)
    (diff_var st) (speed_y_base st) (speed_x_base st) (level st) (high_score st)
    (current_tile_color st) (jump_active st) v (jump_cooldown_timer st) (last_time st)
    (rng st) (gen_calls st) (spawn_calls st) (progress_calls st) (highscore_file st).

Definition set_jump_cooldown_timer (v : Q) (st : Game) : Game :=
  Build_Game (perspective_point_x st) (perspective_point_y st) (tiles_coordinates st)
    (obstacle_coords st) (current_offset_y st) (current_y_loop st) (current_speed_x st)
    (current_offset_x st) (ship_coordinates st) (state_game_over st)
    (state_game_has_started st) (paused st) (allow_collisions st) (difficulty st)
    (diff_var st) (speed_y_base st) (speed_x_base st) (level st) (high_score st)
    (current_tile_color st) (jump_active st) (jump_timer st) v (last_time st) (rng st)
    (gen_calls st) (spawn_calls st) (progress_calls st) (highscore_file st).

Definition set_last_time (v : Q) (st : Game) : Game :=
  Build_Game (perspective_point_x st) (perspective_point_y st) (tiles_coordinates st)
    (obstacle_coords st) (current_offset_y st) (current_y_loop st) (current_speed_x st)
    (current_offset_x st) (ship_coordinates st) (state_game_over st)
    (state_game_has_started st) (paused st) (allow_collisions st) (difficulty st)
    (diff_var st) (speed_y_base st) (speed_x_base st) (level st) (high_score st)
    (current_tile_color st) (jump_active st) (jump_timer st) (jump_cooldown_timer st) v
    (rng st) (gen_calls st) (spawn_calls st) (progress_calls st) (highscore_file st).

Definition set_rng (v : Rng) (st : Game) : Game :=
  Build_Game (perspective_point_x st) (perspective_point_y st) (tiles_coordinates st)
    (obstacle_coords st) (current_offset_y st) (current_y_loop st) (current_speed_x st)
    (current_offset_x st) (ship_coordinates st) (state_game_over st)
    (state_game_has_started st) (paused st) (allow_collisions st) (difficulty st)
    (diff_var st) (speed_y_base st) (speed_x_base st) (level st) (high_score st)
    (current_tile_color st) (jump_active st) (jump_timer st) (jump_cooldown_timer st)
    (last_time st) v (gen_calls st) (spawn_calls st) (progress_calls st)
    (highscore_file st).

Definition set_gen_calls (v : nat) (st : Game) : Game :=
  Build_Game (perspective_point_x st) (perspective_point_y st) (tiles_coordinates st)
    (obstacle_coords st) (current_offset_y st) (current_y_loop st) (current_speed_x st)
    (current_offset_x st) (ship_coordinates st) (state_game_over st)
    (state_game_has_started st) (paused st) (allow_collisions st) (difficulty st)
    (diff_var st) (speed_y_base st) (speed_x_base st) (level st) (high_score st)
    (current_tile_color st) (jump_active st) (jump_timer st) (jump_cooldown_timer st)
    (last_time st) (rng st) v (spawn_calls st) (progress_calls st) (highscore_file st).

Definition set_spawn_calls (v : nat) (st : Game) : Game :=
  Build_Game (perspective_point_x st) (perspective_point_y st) (tiles_coordinates st)
    (obstacle_coords st) (current_offset_y st) (current_y_loop st) (current_speed_x st)
    (current_offset_x st) (ship_coordinates st) (state_game_over st)
    (state_game_has_started st) (paused st) (allow_collisions st) (difficulty st)
    (diff_var st) (speed_y_base st) (speed_x_base st) (level st) (high_score st)
    (current_tile_color st) (jump_active st) (jump_timer st) (jump_cooldown_timer st)
    (last_time st) (rng st) (gen_calls st) v (progress_calls st) (highscore_file st).

Definition set_progress_calls (v : nat) (st : Game) : Game :=
  Build_Game (perspective_point_x st) (perspective_point_y st) (tiles_coordinates st)
    (obstacle_coords st) (current_offset_y st) (current_y_loop st) (current_speed_x st)
    (current_offset_x st) (ship_coordinates st) (state_game_over st)
    (state_game_has_started st) (paused st) (allow_collisions st) (difficulty st)
    (diff_var st) (speed_y_base st) (speed_x_base st) (level st) (high_score st)
    (current_tile_color st) (jump_active st) (jump_timer st) (jump_cooldown_timer st)
    (last_time st) (rng st) (gen_calls st) (spawn_calls st) v (highscore_file st).

Definition set_highscore_file (v : HighscoreFile) (st : Game) : Game :=
  Build_Game (perspective_point_x st) (perspective_point_y st) (tiles_coordinates st)
    (obstacle_coords st) (current_offset_y st) (current_y_loop st) (current_speed_x st)
    (current_offset_x st) (ship_coordinates st) (state_game_over st)
    (state_game_has_started st) (paused st) (allow_collisions st) (difficulty st)
    (diff_var st) (speed_y_base st) (speed_x_base st) (level st) (high_score st)
    (current_tile_color st) (jump_active st) (jump_timer st) (jump_cooldown_timer st)
    (last_time st) (rng st) (gen_calls st) (spawn_calls st) (progress_calls st) v.

(** ** Jump ([_try_jump], [_update_jump_timers]) *)

(** The simulation runs: started, not over, not paused. *)
Definition playing (st : Game) : bool :=
  negb (state_game_over st) && state_game_has_started st && negb (paused st).

Definition _try_jump (st : Game) : Game :=
  if negb (state_game_has_started st) || state_game_over st || paused st then st
  else if jump_active st then st
  else if Qltb 0 (jump_cooldown_timer st) then st
  else
    let st := set_jump_active true st in
    let st := set_jump_timer JUMP_DURATION st in
    set_jump_cooldown_timer (JUMP_DURATION + JUMP_COOLDOWN) st.

Definition _update_jump_timers (dt : Q) (st : Game) : Game :=
  let st :=
    if jump_active st then
      let st := set_jump_timer (jump_timer st - dt) st in
      if Qleb (jump_timer st) 0 then set_jump_active false st else st
    else st in
  if Qltb 0 (jump_cooldown_timer st) then
    let st := set_jump_cooldown_timer (jump_cooldown_timer st - dt) st in
    if Qltb (jump_cooldown_timer st) 0 then set_jump_cooldown_timer 0 st else st
  else st.

(** ** Perspective ([transform_perspective]) *)

(** [int(x)] on a float: truncation toward zero. *)
Definition Qtrunc (q : Q) : Z := Z.quot (Qnum q) (Zpos (Qden q)).

(** The linearly scaled [y], clamped to the vanishing point. *)
Definition lin_y_of (st : Game) (y : Q) : Q :=
  let lin_y := (y * perspective_point_y st / inject_Z WINDOW_HEIGHT)%Q in
  if Qltb (perspective_point_y st) lin_y then perspective_point_y st else lin_y.

(** [factor_y] before and after [math.pow(factor_y, 4)]. *)
Definition factor_y_lin (st : Game) (y : Q) : Q :=
  let diff_y := (perspective_point_y st - lin_y_of st y)%Q in
  (diff_y / perspective_point_y st)%Q.

Definition factor_y_of (st : Game) (y : Q) : Q := (factor_y_lin st y ^ 4)%Q.

Definition transform_perspective (st : Game) (x y : Q) : Z * Z :=
  let diff_x := (x - perspective_point_x st)%Q in
  let factor_y := factor_y_of st y in
  let offset_x := (diff_x * factor_y)%Q in
  let tr_x := (perspective_point_x st + offset_x)%Q in
  let tr_y := (perspective_point_y st - factor_y * perspective_point_y st)%Q in
  let tr_y_tk := (inject_Z WINDOW_HEIGHT - tr_y)%Q in
  (Qtrunc tr_x, Qtrunc tr_y_tk).

Definition transform (st : Game) (x y : Q) : Z * Z := transform_perspective st x y.

(** ** Grid to world coordinates *)

Definition get_line_x_from_index (st : Game) (index : Z) : Q :=
  let central_line_x := perspective_point_x st in
  let spacing := fmul V_LINES_SPACING (float_of_int WINDOW_WIDTH) in
  let offset := fsub (float_of_int index) (1 # 2) in
  fadd (fadd central_line_x (fmul offset spacing)) (current_offset_x st).

(** [self.H_LINES_SPACING * WINDOW_HEIGHT], the height of a row. *)
Definition spacing_y : Q := fmul H_LINES_SPACING (float_of_int WINDOW_HEIGHT).

Definition get_line_y_from_index (st : Game) (index : Z) : Q :=
  fsub (fmul (float_of_int index) spacing_y) (current_offset_y st).

Definition get_tile_coordinates (st : Game) (ti_x ti_y : Z) : Q * Q :=
  let ti_y := ti_y - current_y_loop st in
  (get_line_x_from_index st ti_x, get_line_y_from_index st ti_y).

(** [_update_ship], without the canvas: the three vertices of the ship. *)
Definition _update_ship (st : Game) : Game :=
  let center_x := fdiv (float_of_int WINDOW_WIDTH) (float_of_int 2) in
  let base_y := fmul SHIP_BASE_Y (float_of_int WINDOW_HEIGHT) in
  let half_width := fdiv (fmul SHIP_WIDTH (float_of_int WINDOW_WIDTH)) (float_of_int 2) in
  let ship_height := fmul SHIP_HEIGHT (float_of_int WINDOW_HEIGHT) in
  set_ship_coordinates
    [(fsub center_x half_width, base_y);
     (center_x, fadd base_y ship_height);
     (fadd center_x half_width, base_y)] st.

(** ** Collisions *)

(** [xmin <= px <= xmax and ymin <= py <= ymax] *)
Definition in_box (lo hi p : Q * Q) : bool :=
  Qleb (fst lo) (fst p) && Qleb (fst p) (fst hi) &&
  Qleb (snd lo) (snd p) && Qleb (snd p) (snd hi).

Definition _check_ship_collision_with_tile (st : Game) (ti_x ti_y : Z) : bool :=
  let lo := get_tile_coordinates st ti_x ti_y in
  let hi := get_tile_coordinates st (ti_x + 1) (ti_y + 1) in
  existsb (in_box lo hi) (ship_coordinates st).

(** The rows the collision checks look at. *)
Definition near_ship (st : Game) (ti_y : Z) : bool :=
  negb (ti_y <? current_y_loop st - 1) && negb (current_y_loop st + 2 <? ti_y).

Definition _check_ship_collisions (st : Game) : bool :=
  if negb (allow_collisions st) then false
  else
    let safe :=
      existsb (fun t => near_ship st (snd t) &&
                        _check_ship_collision_with_tile st (fst t) (snd t))
              (tiles_coordinates st) in
    negb safe.

Definition _check_obstacle_collision (st : Game) : bool :=
  if level st <? 1 then false
  else if jump_active st then false
  else
    existsb (fun t => negb (fst t =? -999) && near_ship st (snd t) &&
                      _check_ship_collision_with_tile st (fst t) (snd t))
            (obstacle_coords st).

(** ** Obstacles ([_update_obstacles], [_maybe_spawn_obstacle]) *)

(** [_update_obstacles], without the canvas: an obstacle that fell behind
    goes back to the pool. *)
Definition _update_obstacles (st : Game) : Game :=
  set_obstacle_coords
    (map (fun t =>
            if fst t =? -999 then t
            else if snd t <? current_y_loop st - 1 then SENTINEL
            else t)
         (obstacle_coords st)) st.

Definition coord_eqb (a b : Z * Z) : bool := (fst a =? fst b) && (snd a =? snd b).

(** [l.index(v)]: the first position of [v]; [None] is [ValueError]. *)
Fixpoint index (v : Z * Z) (l : list (Z * Z)) : option nat :=
  match l with
  | [] => None
  | a :: l' => if coord_eqb a v then Some O else option_map S (index v l')
  end.

(** [l[i] = v] for [i] in range. *)
Fixpoint list_set {A : Type} (i : nat) (v : A) (l : list A) : list A :=
  match l, i with
  | [], _ => []
  | _ :: l', O => v :: l'
  | a :: l', S i' => a :: list_set i' v l'
  end.

(** [xs.add(x)] on a set of lanes, kept as a list without repetition. *)
Definition lane_add (x : Z) (xs : list Z) : list Z :=
  if existsb (Z.eqb x) xs then xs else xs ++ [x].

(** [rows.setdefault(y, set()).add(x)] on the dict [rows], kept in
    insertion order. *)
Fixpoint rows_add (y x : Z) (rows : list (Z * list Z)) : list (Z * list Z) :=
  match rows with
  | [] => [(y, [x])]
  | (y', xs) :: rest =>
      if y' =? y then (y', lane_add x xs) :: rest
      else (y', xs) :: rows_add y x rest
  end.

(** The dict [rows]: the lanes of every row that is not too close to the
    player. *)
Definition group_rows (cur : Z) (tiles : list (Z * Z)) : list (Z * list Z) :=
  fold_left (fun rows t => if snd t <=? cur + 1 then rows
                           else rows_add (snd t) (fst t) rows)
            tiles [].

Definition spawn_candidates (cur : Z) (tiles : list (Z * Z)) : list (Z * list Z) :=
  filter (fun r => (2 <=? length (snd r))%nat) (group_rows cur tiles).

(** [min(0.3 + 0.1 * level, 0.7)] *)
Definition spawn_prob (lvl : Z) : Q :=
  let a := ((3 # 10) + (1 # 10) * inject_Z lvl)%Q in
  let b := (7 # 10)%Q in
  if Qltb b a then b else a.

Definition _maybe_spawn_obstacle (st : Game) : Game :=
  let st := set_spawn_calls (S (spawn_calls st)) st in
  if level st <? 1 then st
  else
    let prob := spawn_prob (level st) in
    let (u, g) := random (rng st) in
    let st := set_rng g st in
    if Qltb prob u then st
    else
      let candidates := spawn_candidates (current_y_loop st) (tiles_coordinates st) in
      match candidates with
      | [] => st
      | _ :: _ =>
          let (cand, g) := choice (0, []) candidates (rng st) in
          let (row_y, xs) := cand in
          let (ti_x, g) := choice 0 xs g in
          let st := set_rng g st in
          let ti_y := row_y in
          match index SENTINEL (obstacle_coords st) with
          | None => st
          | Some idx =>
              set_obstacle_coords (list_set idx (ti_x, ti_y) (obstacle_coords st)) st
          end
      end.

(** ** Track ([_generate_tiles_coordinates]) *)

Definition start_index : Z := - Qtrunc (inject_Z V_NB_LINES / 2) + 1.
Definition end_index : Z := start_index + V_NB_LINES - 1.

(** The running variables of the generation loop. *)
Record GenAcc : Type := {
  acc_tiles : list (Z * Z);
  acc_last_x : Z;
  acc_last_y : Z;
  acc_rng : Rng
}.

(** One turn of [for _ in range(len(self.tiles_coordinates), self.NB_TILES)]. *)
Definition gen_step (a : GenAcc) : GenAcc :=
  let (r, g) := randint 0 2 (acc_rng a) in
  let last_x := acc_last_x a in
  let last_y := acc_last_y a in
  let r := if last_x <=? start_index then 1 else r in
  let r := if last_x >=? end_index then 2 else r in
  let tiles := acc_tiles a ++ [(last_x, last_y)] in
  if r =? 1 then
    let last_x := last_x + 1 in
    let tiles := tiles ++ [(last_x, last_y)] in
    let last_y := last_y + 1 in
    let tiles := tiles ++ [(last_x, last_y)] in
    {| acc_tiles := tiles; acc_last_x := last_x; acc_last_y := last_y + 1; acc_rng := g |}
  else if r =? 2 then
    let last_x := last_x - 1 in
    let tiles := tiles ++ [(last_x, last_y)] in
    let last_y := last_y + 1 in
    let tiles := tiles ++ [(last_x, last_y)] in
    {| acc_tiles := tiles; acc_last_x := last_x; acc_last_y := last_y + 1; acc_rng := g |}
  else
    {| acc_tiles := tiles; acc_last_x := last_x; acc_last_y := last_y + 1; acc_rng := g |}.

Fixpoint gen_loop (n : nat) (a : GenAcc) : GenAcc :=
  match n with
  | O => a
  | S n' => gen_loop n' (gen_step a)
  end.

(** The tiles that survive the eviction at the head of the generator. *)
Definition evict (cur : Z) (tiles : list (Z * Z)) : list (Z * Z) :=
  filter (fun t => negb (snd t <? cur)) tiles.

Definition _generate_tiles_coordinates (st : Game) : Game :=
  let st := set_gen_calls (S (gen_calls st)) st in
  let kept := evict (current_y_loop st) (tiles_coordinates st) in
  let (last_x, last_y) :=
    match rev kept with
    | last_coordinate :: _ => (fst last_coordinate, snd last_coordinate + 1)
    | [] => (0, 5)
    end in
  let a := gen_loop (NB_TILES - length kept)
             {| acc_tiles := kept; acc_last_x := last_x; acc_last_y := last_y;
                acc_rng := rng st |} in
  let st := set_tiles_coordinates (acc_tiles a) st in
  let st := set_rng (acc_rng a) st in
  _maybe_spawn_obstacle st.

Definition _reset_tiles (st : Game) : Game :=
  let st := set_tiles_coordinates (map (fun i => (0, i)) [5; 6; 7; 8; 9; 10; 11; 12; 13; 14]) st in
  _generate_tiles_coordinates st.

(** ** Progression ([_update_tile_color_by_score], [_on_level_changed]) *)

Definition _on_level_changed (band : Z) (st : Game) : Game :=
  let factor := ((108 # 100) ^ band)%Q in
  let st := set_speed_y_base (DIFFICULTIES_speed (difficulty st) * factor) st in
  set_speed_x_base (DIFFICULTIES_speed_x (difficulty st) * factor) st.

Definition _update_tile_color_by_score (st : Game) : Game :=
  let st := set_progress_calls (S (progress_calls st)) st in
  let band := current_y_loop st / 100 in
  let idx := band mod Z.of_nat (length tile_colors) in
  let st := set_current_tile_color (nth (Z.to_nat idx) tile_colors EmptyString) st in
  if (0 <? band) && negb (band =? level st) then
    let st := _on_level_changed band st in
    set_level band st
  else st.

Definition _on_difficulty_changed (st : Game) : Game :=
  let name := diff_var st in
  let st := set_difficulty name st in
  let st := set_speed_y_base (DIFFICULTIES_speed name) st in
  set_speed_x_base (DIFFICULTIES_speed_x name) st.

(** ** Phases ([reset_game], [on_menu_button_pressed], [_on_game_over],
       [_toggle_pause]) *)

Definition reset_game (st : Game) : Game :=
  let st := set_current_offset_y 0 st in
  let st := set_current_y_loop 0 st in
  let st := set_current_speed_x 0 st in
  let st := set_current_offset_x 0 st in
  let st := set_tiles_coordinates [] st in
  let st := set_allow_collisions false st in
  let st := set_paused false st in
  let st := set_level 0 st in
  let st := set_jump_active false st in
  let st := set_jump_timer 0 st in
  let st := set_jump_cooldown_timer 0 st in
  let st := set_current_tile_color (nth 0 tile_colors EmptyString) st in
  let st := set_obstacle_coords
              (fold_left (fun l i => list_set i SENTINEL l) (seq 0 MAX_OBSTACLES)
                         (obstacle_coords st)) st in
  let st := _reset_tiles st in
  set_state_game_over false st.

Definition on_menu_button_pressed (st : Game) : Game :=
  let st := _on_difficulty_changed st in
  let st := reset_game st in
  let st := set_state_game_has_started true st in
  set_state_game_over false st.

Definition _on_game_over (st : Game) : Game :=
  let st := set_state_game_over true st in
  let st := set_state_game_has_started false st in
  if high_score st <? current_y_loop st then
    let st := set_high_score (current_y_loop st) st in
    set_highscore_file (save_high_score (high_score st) (highscore_file st)) st
  else st.

Definition _toggle_pause (st : Game) : Game :=
  if negb (state_game_has_started st) || state_game_over st then st
  else set_paused (negb (paused st)) st.

(** ** Input *)

Inductive Key : Type := KLeft | KRight | KP | KSpace.

Definition _on_key_down (k : Key) (st : Game) : Game :=
  match k with
  | KLeft => set_current_speed_x (speed_x_base st) st
  | KRight => set_current_speed_x (- speed_x_base st) st
  | KP => _toggle_pause st
  | KSpace => _try_jump st
  end.

Definition _on_key_up (k : Key) (st : Game) : Game :=
  match k with
  | KLeft | KRight => set_current_speed_x 0 st
  | _ => st
  end.

Definition _on_mouse_down (x : Z) (st : Game) : Game :=
  if negb (state_game_over st) && state_game_has_started st && negb (paused st) then
    if Qltb (inject_Z x) (inject_Z WINDOW_WIDTH / 2) then
      set_current_speed_x (speed_x_base st) st
    else set_current_speed_x (- speed_x_base st) st
  else st.

Definition _on_mouse_up (st : Game) : Game := set_current_speed_x 0 st.

(** ** The frame ([_game_loop]) *)

(** The body of [while self.current_offset_y >= spacing_y]. *)
Definition row_crossing (st : Game) : Game :=
  let st := set_current_offset_y (fsub (current_offset_y st) spacing_y) st in
  let st := set_current_y_loop (current_y_loop st + 1) st in
  let st := _update_tile_color_by_score st in
  let st := _generate_tiles_coordinates st in
  if negb (allow_collisions st) && (COLLISION_START_LOOP <=? current_y_loop st)
  then set_allow_collisions true st
  else st.

(** The [while] loop; [None] when [fuel] turns do not reach its exit. *)
Fixpoint row_loop (fuel : nat) (st : Game) : option Game :=
  if Qleb spacing_y (current_offset_y st) then
    match fuel with
    | O => None
    | S fuel' => row_loop fuel' (row_crossing st)
    end
  else Some st.

(** What the frame does when the game is being played, after the offset
    has advanced. *)
Definition play_frame (fuel : nat) (time_factor : Q) (st : Game) : option Game :=
  let speed_y := fdiv (fmul (speed_y_base st) (float_of_int WINDOW_HEIGHT)) 100 in
  let st := set_current_offset_y (fadd (current_offset_y st) (fmul speed_y time_factor)) st in
  match row_loop fuel st with
  | None => None
  | Some st =>
      let speed_x := fdiv (fmul (current_speed_x st) (float_of_int WINDOW_WIDTH)) 100 in
      let st := set_current_offset_x (fadd (current_offset_x st) (fmul speed_x time_factor)) st in
      if _check_ship_collisions st || _check_obstacle_collision st
      then Some (_on_game_over st)
      else Some st
  end.

(** [now] is the reading of [time.perf_counter()]. *)
Definition _game_loop (fuel : nat) (now : Q) (st : Game) : option Game :=
  let dt := fsub now (last_time st) in
  let st := set_last_time now st in
  let time_factor := fmul dt 60 in
  let st := _update_jump_timers dt st in
  let st := _update_obstacles st in
  let st := _update_ship st in
  if negb (state_game_over st) && state_game_has_started st && negb (paused st)
  then play_frame fuel time_factor st
  else Some st.

(** ** The game as a transition system *)

(** [__init__]: [hs] is the value of [load_high_score()], [now] the first
    reading of the clock. *)
Definition init_game (g : Rng) (f : HighscoreFile) (hs : Z) (now : Q) : Game :=
  let st :=
    {| perspective_point_x := fdiv (float_of_int WINDOW_WIDTH) (float_of_int 2);
       perspective_point_y := fmul (float_of_int WINDOW_HEIGHT) (round64 (75 # 100));
       tiles_coordinates := [];
       obstacle_coords := [];
       current_offset_y := 0;
       current_y_loop := 0;
       current_speed_x := 0;
       current_offset_x := 0;
       ship_coordinates := [(0, 0); (0, 0); (0, 0)]%Q;
       state_game_over := false;
       state_game_has_started := false;
       paused := false;
       allow_collisions := false;
       difficulty := Normal;
       diff_var := Normal;
       speed_y_base := DIFFICULTIES_speed Normal;
       speed_x_base := DIFFICULTIES_speed_x Normal;
       level := 0;
       high_score := hs;
       current_tile_color := nth 0 tile_colors EmptyString;
       jump_active := false;
       jump_timer := 0;
       jump_cooldown_timer := 0;
       last_time := now;
       rng := g;
       gen_calls := O;
       spawn_calls := O;
       progress_calls := O;
       highscore_file := f |} in
  let st := _reset_tiles st in
  set_obstacle_coords (obstacle_coords st ++ repeat SENTINEL MAX_OBSTACLES) st.

Inductive Event : Type :=
| Frame (now : Q)
| KeyDown (k : Key)
| KeyUp (k : Key)
| MouseDown (x : Z)
| MouseUp
| SelectDifficulty (d : Difficulty)
| MenuButton.

Definition handle (fuel : nat) (e : Event) (st : Game) : option Game :=
  match e with
  | Frame now => _game_loop fuel now st
  | KeyDown k => Some (_on_key_down k st)
  | KeyUp k => Some (_on_key_up k st)
  | MouseDown x => Some (_on_mouse_down x st)
  | MouseUp => Some (_on_mouse_up st)
  | SelectDifficulty d => Some (_on_difficulty_changed (set_diff_var d st))
  | MenuButton => Some (on_menu_button_pressed st)
  end.

Inductive reachable : Game -> Prop :=
| reach_init : forall g f hs now, reachable (init_game g f hs now)
| reach_step : forall st e fuel st',
    reachable st -> handle fuel e st = Some st' -> reachable st'.

(** * Vocabulary of the statements *)


(** The calls counted so far: of the track generator, of the obstacle
    spawn and of the progression update. *)
Definition calls (st : Game) : nat * nat * nat :=
  (gen_calls st, spawn_calls st, progress_calls st).

(** [st'] has the phase, the scroll state and the call counts of [st]. *)
Definition same_scroll (st st' : Game) : Prop :=
  state_game_over st' = state_game_over st /\
  state_game_has_started st' = state_game_has_started st /\
  paused st' = paused st /\
  current_offset_y st' = current_offset_y st /\
  speed_y_base st' = speed_y_base st /\
  current_y_loop st' = current_y_loop st /\
  calls st' = calls st.


(** The part of [_game_loop] that runs in every phase: clock, jump timers,
    obstacles, ship. *)
Definition frame_prelude (now : Q) (st : Game) : Game :=
  _update_ship (_update_obstacles
    (_update_jump_timers (fsub now (last_time st)) (set_last_time now st))).


(** Two tiles that follow each other: one row ahead in the same lane, or
    one lane aside in the same row. *)
Definition adjacent (a b : Z * Z) : bool :=
  ((fst b =? fst a) && (snd b =? snd a + 1)) ||
  (((fst b =? fst a + 1) || (fst b =? fst a - 1)) && (snd b =? snd a)).

(** Every tile of the list is followed by a neighbour. *)
Fixpoint path (l : list (Z * Z)) : bool :=
  match l with
  | a :: ((b :: _) as l') => adjacent a b && path l'
  | _ => true
  end.

(** The lane [x] lies between the outer lines of the grid. *)
Definition in_band (x : Z) : bool := (start_index <=? x) && (x <=? end_index).

(** A track as the generator builds it: a path within the band. *)
Definition track_ok (tiles : list (Z * Z)) : Prop :=
  path tiles = true /\ forallb (fun t => in_band (fst t)) tiles = true.

(** What the generation loop keeps true of its variables: the tiles form a
    path within the band, and the next tile to lay is one row ahead of the
    last one, in its lane. *)
Definition gen_ok (a : GenAcc) : Prop :=
  track_ok (acc_tiles a) /\
  in_band (acc_last_x a) = true /\
  (acc_tiles a = [] \/
   exists l0 y, acc_tiles a = l0 ++ [(acc_last_x a, y)] /\ acc_last_y a = y + 1).

(** What holds of every state of a run: the row counter is not negative,
    the level is the band of the row, collisions are switched on exactly
    from row [COLLISION_START_LOOP] on, the pool has [MAX_OBSTACLES] slots,
    and the track is a path within the band. *)
Record game_ok (st : Game) : Prop := {
  ok_row : 0 <= current_y_loop st;
  ok_level : level st = current_y_loop st / 100;
  ok_allow : allow_collisions st = (COLLISION_START_LOOP <=? current_y_loop st);
  ok_pool : length (obstacle_coords st) = MAX_OBSTACLES;
  ok_track : track_ok (tiles_coordinates st)
}.

(** [st'] has the row, level, collision switch and track of [st], and a
    pool of the same size. *)
Definition same_core (st st' : Game) : Prop :=
  current_y_loop st' = current_y_loop st /\
  level st' = level st /\
  allow_collisions st' = allow_collisions st /\
  length (obstacle_coords st') = length (obstacle_coords st) /\
  tiles_coordinates st' = tiles_coordinates st.

(** The point [p] is within the world-space box of the tile [t]. *)
Definition tile_contains (st : Game) (t : Z * Z) (p : Q * Q) : Prop :=
  let lo := get_tile_coordinates st (fst t) (snd t) in
  let hi := get_tile_coordinates st (fst t + 1) (snd t + 1) in
  (fst lo <= fst p)%Q /\ (fst p <= fst hi)%Q /\ (snd lo <= snd p)%Q /\ (snd p <= snd hi)%Q.

(** The row [y] is one of [current_y_loop - 1 .. current_y_loop + 2]. *)
Definition in_window (st : Game) (y : Z) : Prop :=
  current_y_loop st - 1 <= y <= current_y_loop st + 2.

(** The slots that hold an obstacle. *)
Definition active_obstacles (st : Game) : nat :=
  length (filter (fun t => negb (coord_eqb t SENTINEL)) (obstacle_coords st)).

(** What the dict [rows] holds: lanes without repetition, each the lane of
    a tile of that row, and rows beyond [cur + 1] only. *)
Definition rows_ok (cur : Z) (tiles : list (Z * Z)) (rows : list (Z * list Z)) : Prop :=
  forall y xs, In (y, xs) rows ->
               NoDup xs /\ cur + 1 < y /\ forall x, In x xs -> In (x, y) tiles.

(** Every row of the track but its first one holds a tile whose lane is
    also present one row back. *)
Definition rows_linked (tiles : list (Z * Z)) : Prop :=
  forall x y, In (x, y) tiles ->
    (exists t0 rest, tiles = t0 :: rest /\ snd t0 = y) \/
    (exists x', In (x', y) tiles /\ In (x', y - 1) tiles).

(** The track is a path, stays in the band of lanes, and has its rows
    linked. *)
Definition track_sound (tiles : list (Z * Z)) : Prop :=
  path tiles = true /\
  (forall t, In t tiles -> start_index <= fst t <= end_index) /\
  rows_linked tiles.

(** * Games to run the statements on *)

Module Sample.

(** A random source whose draws are 0, 1, 2, 3, ...: the generator cycles
    through straight, right, left. *)
Definition source : Rng := {| rng_src := fun n => Z.of_nat n; rng_pos := O |}.

Definition file : HighscoreFile := {| hf_content := None; hf_fault := NoFault |}.

(** The game when the window opens, and after START. *)
Definition menu : Game := init_game source file 0 0.
Definition started : Game := on_menu_button_pressed menu.



(** The game two seconds after START, reached in one frame: row 6. *)
Definition row_6 : Game :=
  match _game_loop 10 2 started with
  | Some st => st
  | None => started
  end.

(** The tip of the ship. *)
Definition tip : Q * Q := nth 1 (ship_coordinates row_6) (0, 0)%Q.

(** The game 32 seconds after START, reached in one frame: row 102, with
    three obstacles in play. *)
Definition row_102 : Game :=
  match _game_loop 200 32 started with
  | Some st => st
  | None => started
  end.

(** The same game with every slot of the pool taken. *)
Definition full_pool : Game := set_obstacle_coords (repeat (0, 108) 6) row_102.

(** The generation loop about to lay a tile on the leftmost lane. *)
Definition at_left_edge : GenAcc :=
  {| acc_tiles := []; acc_last_x := -3; acc_last_y := 5; acc_rng := source |}.

(** The game 1.6 seconds after START, reached in one frame: row 5. *)
Definition row_5 : Game :=
  match _game_loop 10 (round64 (16 # 10)) started with
  | Some st => st
  | None => started
  end.

(** The state the generator receives in the crossing that follows. *)
Definition before_generation : Game :=
  _update_tile_color_by_score
    (set_current_y_loop (current_y_loop row_5 + 1)
       (set_current_offset_y (fsub (current_offset_y row_5) spacing_y) row_5)).



(** START, the right arrow held during a frame of 5/42 seconds, and a
    frame two seconds after START: the track has moved left by a quarter
    of the window, and the right edge of lane 0 meets the left wing of the
    ship. *)
Definition steered : Game :=
  match _game_loop 10 (round64 (5 # 42)) (_on_key_down KRight started) with
  | Some st => st
  | None => started
  end.

Definition grazing : Game :=
  match _game_loop 10 2 (_on_key_up KRight steered) with
  | Some st => st
  | None => started
  end.

End Sample.

(** * Properties *)

(** Closed comparisons of rationals and integers, by evaluation. *)
Ltac by_eval :=
  vm_compute; first [reflexivity | discriminate | (intro; discriminate)].

(** Case analysis on every test of the goal. *)
Ltac split_ifs :=
  repeat match goal with
         | |- context [if ?c then _ else _] => destruct c
         end.

(** ** Comparisons *)

Lemma Qleb_true (a b : Q) : Qleb a b = true <-> (a <= b)%Q.
Proof. unfold Qleb. apply Qle_bool_iff. Qed.



Lemma Qltb_false (a b : Q) : Qltb a b = false <-> (b <= a)%Q.
Proof.
  unfold Qltb. rewrite negb_false_iff. apply (Qleb_true b a).
Qed.

(** ** Rounding to binary64 *)













Lemma round64_comp (p q : Q) : (p == q)%Q -> round64 p = round64 q.
Proof. intros H. unfold round64. rewrite (Qred_complete p q H). reflexivity. Qed.








(** ** Jump *)


Lemma _try_jump_not_playing (st : Game) : playing st = false -> _try_jump st = st.
Proof.
  unfold playing, _try_jump.
  destruct (state_game_has_started st), (state_game_over st), (paused st);
    simpl; intros H; try reflexivity; discriminate H.
Qed.




(** C10. A jump request leaves the whole state as it is when the game has
    not started, is over, or is paused, also when it comes through the key
    handler; a request that changes the state was made while playing. *)
Theorem jump_ignored_unless_playing (st : Game) :
  (state_game_has_started st = false \/ state_game_over st = true \/ paused st = true ->
   _try_jump st = st /\ forall fuel, handle fuel (KeyDown KSpace) st = Some st) /\
  (_try_jump st <> st -> playing st = true).
Proof.
  split.
  - intros H.
    assert (Hn : playing st = false).
    { unfold playing. destruct H as [H | [H | H]]; rewrite H;
        destruct (state_game_over st), (state_game_has_started st); reflexivity. }
    split; [apply _try_jump_not_playing; exact Hn|].
    intros fuel. simpl. rewrite (_try_jump_not_playing st Hn). reflexivity.
  - intros H. destruct (playing st) eqn:E; [reflexivity|].
    exfalso. apply H. apply _try_jump_not_playing. exact E.
Qed.

Lemma jump_ignored_unless_playing_witness :
  (state_game_has_started Sample.menu = false /\ _try_jump Sample.menu = Sample.menu) /\
  (_try_jump Sample.started <> Sample.started /\ playing Sample.started = true).
Proof.
  destruct (jump_ignored_unless_playing Sample.menu) as (H1 & _).
  destruct (jump_ignored_unless_playing Sample.started) as (_ & H2).
  assert (Hs : state_game_has_started Sample.menu = false) by by_eval.
  assert (Hd : _try_jump Sample.started <> Sample.started).
  { intro E. apply (f_equal jump_active) in E. vm_compute in E. discriminate E. }
  split; [split; [exact Hs | exact (proj1 (H1 (or_introl Hs)))] |].
  split; [exact Hd | exact (H2 Hd)].
Defined.

(** ** Perspective *)

Lemma lin_y_of_le (st : Game) (y : Q) : (lin_y_of st y <= perspective_point_y st)%Q.
Proof.
  unfold lin_y_of.
  destruct (Qltb _ _) eqn:E.
  - apply Qle_refl.
  - apply Qltb_false in E. exact E.
Qed.

Lemma factor_y_lin_nonneg (st : Game) (y : Q) :
  (0 < perspective_point_y st)%Q -> (0 <= factor_y_lin st y)%Q.
Proof.
  intros Hp. unfold factor_y_lin.
  apply Qle_shift_div_l; [exact Hp|].
  rewrite Qmult_0_l. pose proof (lin_y_of_le st y) as H.
  apply -> Qle_minus_iff in H. exact H.
Qed.

(** [int(x)] does not tell two fractions of the same value apart. *)
Lemma Qtrunc_comp (p q : Q) : (p == q)%Q -> Qtrunc p = Qtrunc q.
Proof.
  unfold Qeq, Qtrunc. destruct p as [pn pd], q as [qn qd]. cbn [Qnum Qden].
  intros H.
  rewrite <- (Z.quot_mul_cancel_r pn (Z.pos pd) (Z.pos qd)) by discriminate.
  rewrite <- (Z.quot_mul_cancel_r qn (Z.pos qd) (Z.pos pd)) by discriminate.
  rewrite H, (Z.mul_comm (Z.pos pd)). reflexivity.
Qed.

(** With the depth factor at 0 the projection gives the vanishing point,
    in the coordinates of the canvas. *)
Lemma transform_perspective_at_horizon (st : Game) (x y : Q) :
  (factor_y_of st y == 0)%Q ->
  transform_perspective st x y =
  (Qtrunc (perspective_point_x st),
   Qtrunc (inject_Z WINDOW_HEIGHT - perspective_point_y st)).
Proof.
  intros Hf. unfold transform_perspective.
  revert Hf. generalize (factor_y_of st y). intros f Hf.
  f_equal; apply Qtrunc_comp; rewrite Hf; ring.
Qed.

(** C6. The projection reads nothing of the game but the vanishing point:
    two games with the same vanishing point give the same screen point for
    the same [(x, y)].  Where the scaled [y] is at or above the vanishing
    point it is clamped to it, the depth factor is 0, and the screen point
    is the vanishing point itself, whatever [x]; and for every [y] the
    depth factor is at least 0, before and after the fourth power. *)
Theorem projection_deterministic_and_clamped (st1 st2 : Game) (x y : Q) :
  perspective_point_x st1 = perspective_point_x st2 ->
  perspective_point_y st1 = perspective_point_y st2 ->
  (0 < perspective_point_y st1)%Q ->
  transform_perspective st1 x y = transform_perspective st2 x y /\
  ((perspective_point_y st1 <= y * perspective_point_y st1 / inject_Z WINDOW_HEIGHT)%Q ->
   (lin_y_of st1 y == perspective_point_y st1)%Q /\ (factor_y_of st1 y == 0)%Q /\
   transform_perspective st1 x y =
     (Qtrunc (perspective_point_x st1),
      Qtrunc (inject_Z WINDOW_HEIGHT - perspective_point_y st1))) /\
  (0 <= factor_y_lin st1 y)%Q /\ (0 <= factor_y_of st1 y)%Q.
Proof.
  intros Hx Hy Hp. split; [|split; [|split]].
  - unfold transform_perspective, factor_y_of, factor_y_lin, lin_y_of.
    rewrite Hx, Hy. reflexivity.
  - intros Hc.
    assert (Hl : (lin_y_of st1 y == perspective_point_y st1)%Q).
    { apply Qle_antisym; [apply lin_y_of_le|].
      unfold lin_y_of. destruct (Qltb _ _); [apply Qle_refl | exact Hc]. }
    assert (Hf : (factor_y_of st1 y == 0)%Q).
    { unfold factor_y_of, factor_y_lin. rewrite Hl.
      setoid_replace (perspective_point_y st1 - perspective_point_y st1)%Q
        with 0%Q by ring.
      reflexivity. }
    split; [exact Hl|]. split; [exact Hf|].
    apply transform_perspective_at_horizon. exact Hf.
  - apply factor_y_lin_nonneg. exact Hp.
  - unfold factor_y_of. apply Qpower_0_le. apply factor_y_lin_nonneg. exact Hp.
Qed.

Lemma projection_deterministic_and_clamped_witness :
  perspective_point_x Sample.menu = perspective_point_x Sample.started /\
  perspective_point_y Sample.menu = perspective_point_y Sample.started /\
  (0 < perspective_point_y Sample.menu)%Q /\
  (perspective_point_y Sample.menu <=
   900 * perspective_point_y Sample.menu / inject_Z WINDOW_HEIGHT)%Q /\
  transform_perspective Sample.menu 100 900 = transform_perspective Sample.started 100 900 /\
  (factor_y_of Sample.menu 900 == 0)%Q /\
  transform_perspective Sample.menu 100 900 = (512, 200).
Proof.
  assert (Hx : perspective_point_x Sample.menu = perspective_point_x Sample.started)
    by (vm_compute; reflexivity).
  assert (Hy : perspective_point_y Sample.menu = perspective_point_y Sample.started)
    by (vm_compute; reflexivity).
  assert (Hp : (0 < perspective_point_y Sample.menu)%Q) by by_eval.
  assert (Hc : (perspective_point_y Sample.menu <=
                900 * perspective_point_y Sample.menu / inject_Z WINDOW_HEIGHT)%Q)
    by by_eval.
  assert (Hv : (Qtrunc (perspective_point_x Sample.menu),
                Qtrunc (inject_Z WINDOW_HEIGHT - perspective_point_y Sample.menu)) =
               (512, 200)) by (vm_compute; reflexivity).
  destruct (projection_deterministic_and_clamped Sample.menu Sample.started 100 900
              Hx Hy Hp) as (H1 & H2 & _).
  destruct (H2 Hc) as (_ & H3 & H4).
  exact (conj Hx (conj Hy (conj Hp (conj Hc (conj H1 (conj H3 (eq_trans H4 Hv))))))).
Defined.

(** ** High score file *)

(** C9 (the code departs from the claim). With a file that can be written,
    [save_high_score] stores the decimal form of the value it is given:
    [-5] is stored as such, where the clamped value would be [0].  Whatever
    the fault of the file, the call returns. *)
Theorem save_high_score_keeps_negative :
  hf_content (save_high_score (-5) Sample.file) = Some "-5"%string /\
  str_int (Z.max 0 (-5)) = "0"%string /\
  (forall value c,
     hf_content (save_high_score value {| hf_content := c; hf_fault := NoFault |}) =
     Some (str_int value)) /\
  (forall value c,
     save_high_score value {| hf_content := c; hf_fault := OpenFails |} =
     {| hf_content := c; hf_fault := OpenFails |}).
Proof.
  split; [vm_compute; reflexivity|].
  split; [vm_compute; reflexivity|].
  split; intros value c; reflexivity.
Qed.

(** ** What each method leaves alone *)

Lemma set_get_obstacles_rng (st : Game) :
  st = set_obstacle_coords (obstacle_coords st) (set_rng (rng st) st).
Proof. destruct st; reflexivity. Qed.

Lemma length_list_set {A : Type} (i : nat) (v : A) (l : list A) :
  length (list_set i v l) = length l.
Proof.
  revert i; induction l as [|a l IH]; intros [|i]; simpl; try reflexivity.
  rewrite IH. reflexivity.
Qed.

(** The spawn touches the pool, the random source and its call count,
    nothing else, and the pool keeps its size. *)
Lemma _maybe_spawn_obstacle_shape (st : Game) :
  exists o g,
    _maybe_spawn_obstacle st =
    set_obstacle_coords o (set_rng g (set_spawn_calls (S (spawn_calls st)) st)) /\
    length o = length (obstacle_coords st).
Proof.
  unfold _maybe_spawn_obstacle.
  change (obstacle_coords st)
    with (obstacle_coords (set_spawn_calls (S (spawn_calls st)) st)).
  generalize (set_spawn_calls (S (spawn_calls st)) st). clear st. intros st.
  destruct (level st <? 1).
  { exists (obstacle_coords st), (rng st). split; [apply set_get_obstacles_rng | reflexivity]. }
  destruct (random (rng st)) as [u g].
  destruct (Qltb (spawn_prob (level st)) u).
  { exists (obstacle_coords st), g. split; [|reflexivity]. destruct st; reflexivity. }
  cbn [current_y_loop tiles_coordinates set_rng].
  destruct (spawn_candidates _ _) as [|c cs].
  { exists (obstacle_coords st), g. split; [|reflexivity]. destruct st; reflexivity. }
  cbn [rng set_rng].
  destruct (choice (0, []) (c :: cs) g) as [[row_y xs] g1].
  destruct (choice 0 xs g1) as [ti_x g2].
  cbn [obstacle_coords set_rng].
  destruct (index SENTINEL (obstacle_coords st)) as [idx|].
  - exists (list_set idx (ti_x, row_y) (obstacle_coords st)), g2.
    split; [destruct st; reflexivity | apply length_list_set].
  - exists (obstacle_coords st), g2. split; [destruct st; reflexivity | reflexivity].
Qed.

Lemma _generate_tiles_coordinates_shape (st : Game) :
  exists t o g,
    _generate_tiles_coordinates st =
    set_obstacle_coords o
      (set_rng g (set_tiles_coordinates t
         (set_spawn_calls (S (spawn_calls st)) (set_gen_calls (S (gen_calls st)) st)))) /\
    length o = length (obstacle_coords st).
Proof.
  unfold _generate_tiles_coordinates.
  cbn [current_y_loop tiles_coordinates rng set_gen_calls].
  destruct (match rev _ with [] => _ | _ :: _ => _ end) as [last_x last_y].
  match goal with |- context [gen_loop ?n ?a] => set (a' := gen_loop n a) end.
  destruct (_maybe_spawn_obstacle_shape
              (set_rng (acc_rng a')
                 (set_tiles_coordinates (acc_tiles a') (set_gen_calls (S (gen_calls st)) st))))
    as (o & g & Heq & Hlen).
  exists (acc_tiles a'), o, g. split; [|exact Hlen].
  rewrite Heq. reflexivity.
Qed.

Lemma _update_tile_color_by_score_shape (st : Game) :
  exists c sy sx l,
    _update_tile_color_by_score st =
    set_level l (set_speed_x_base sx (set_speed_y_base sy (set_current_tile_color c
      (set_progress_calls (S (progress_calls st)) st)))).
Proof.
  unfold _update_tile_color_by_score.
  generalize (set_progress_calls (S (progress_calls st)) st). clear st. intros st.
  match goal with |- context [set_current_tile_color ?c st] => set (col := c) end.
  cbn [level set_current_tile_color].
  destruct (_ && _).
  - do 4 eexists. unfold _on_level_changed. reflexivity.
  - exists col, (speed_y_base st), (speed_x_base st), (level st).
    destruct st; reflexivity.
Qed.


(** ** The frame *)








Lemma same_scroll_trans (a b c : Game) :
  same_scroll a b -> same_scroll b c -> same_scroll a c.
Proof.
  intros (A1 & A2 & A3 & A4 & A5 & A6 & A7) (B1 & B2 & B3 & B4 & B5 & B6 & B7).
  repeat split; congruence.
Qed.

Lemma _update_jump_timers_scroll (dt : Q) (st : Game) :
  same_scroll st (_update_jump_timers dt st).
Proof. unfold _update_jump_timers. split_ifs; repeat split. Qed.

Lemma frame_prelude_keeps (now : Q) (st : Game) : same_scroll st (frame_prelude now st).
Proof.
  unfold frame_prelude.
  generalize (_update_jump_timers_scroll (fsub now (last_time st)) (set_last_time now st)).
  generalize (_update_jump_timers (fsub now (last_time st)) (set_last_time now st)).
  intros s Hs.
  apply (same_scroll_trans st s); [|repeat split].
  apply (same_scroll_trans st (set_last_time now st)); [repeat split | exact Hs].
Qed.

Lemma _game_loop_unfold (fuel : nat) (now : Q) (st : Game) :
  _game_loop fuel now st =
  if playing st
  then play_frame fuel (fmul (fsub now (last_time st)) 60) (frame_prelude now st)
  else Some (frame_prelude now st).
Proof.
  unfold _game_loop. fold (frame_prelude now st).
  destruct (frame_prelude_keeps now st) as (E1 & E2 & E3 & _).
  rewrite E1, E2, E3. reflexivity.
Qed.






(** ** The shape of the track *)

Lemma adjacent_row (a b : Z * Z) : adjacent a b = true -> snd a <= snd b.
Proof. unfold adjacent. lia. Qed.

Lemma path_tail (a : Z * Z) (l : list (Z * Z)) : path (a :: l) = true -> path l = true.
Proof.
  destruct l as [|b l]; [reflexivity|]. simpl.
  intros H. apply andb_true_iff in H. apply H.
Qed.

Lemma path_rows_ahead (l : list (Z * Z)) :
  forall a, path (a :: l) = true -> forall t, In t l -> snd a <= snd t.
Proof.
  induction l as [|b l IH]; intros a Hp t Hin; [destruct Hin|].
  simpl in Hp. apply andb_true_iff in Hp. destruct Hp as [Hab Hp].
  apply adjacent_row in Hab.
  destruct Hin as [<- | Hin]; [exact Hab|].
  specialize (IH b Hp t Hin). lia.
Qed.

Lemma evict_all_ahead (cur : Z) (l : list (Z * Z)) :
  (forall t, In t l -> cur <= snd t) -> evict cur l = l.
Proof.
  induction l as [|a l IH]; intros H; [reflexivity|].
  simpl. assert (Ha : cur <= snd a) by (apply H; left; reflexivity).
  destruct (snd a <? cur) eqn:E; [lia|]. simpl.
  rewrite IH; [reflexivity|]. intros t Ht. apply H. right. exact Ht.
Qed.

(** The eviction takes a front part of the track away: what stays is still
    a path. *)
Lemma evict_path (cur : Z) (l : list (Z * Z)) : path l = true -> path (evict cur l) = true.
Proof.
  induction l as [|a l IH]; intros Hp; [reflexivity|].
  destruct (snd a <? cur) eqn:E.
  - simpl. rewrite E. simpl. apply IH. apply (path_tail a l Hp).
  - rewrite evict_all_ahead; [exact Hp|].
    intros t [<- | Ht]; [lia|].
    pose proof (path_rows_ahead l a Hp t Ht). lia.
Qed.

Lemma evict_in_band (cur : Z) (l : list (Z * Z)) :
  forallb (fun t => in_band (fst t)) l = true ->
  forallb (fun t => in_band (fst t)) (evict cur l) = true.
Proof.
  intros H. apply forallb_forall. intros t Ht.
  apply filter_In in Ht. destruct Ht as [Ht _].
  rewrite forallb_forall in H. apply H. exact Ht.
Qed.

Lemma path_snoc (l : list (Z * Z)) :
  forall a b, path (l ++ [a]) = true -> adjacent a b = true ->
              path ((l ++ [a]) ++ [b]) = true.
Proof.
  induction l as [|c l IH]; intros a b Hp Hab.
  - simpl. rewrite Hab. reflexivity.
  - destruct l as [|d l].
    + simpl in *. rewrite Hab. rewrite andb_true_r in Hp. rewrite Hp. reflexivity.
    + change (path (c :: ((d :: l) ++ [a]) ++ [b]) = true).
      change (path (c :: (d :: l) ++ [a]) = true) in Hp.
      simpl in Hp. apply andb_true_iff in Hp. destruct Hp as [Hcd Hp].
      specialize (IH a b Hp Hab).
      simpl. simpl in IH. rewrite Hcd. exact IH.
Qed.

Lemma in_band_snoc (l : list (Z * Z)) (t : Z * Z) :
  forallb (fun t => in_band (fst t)) l = true -> in_band (fst t) = true ->
  forallb (fun t => in_band (fst t)) (l ++ [t]) = true.
Proof.
  intros Hl Ht. rewrite forallb_app, Hl. simpl. rewrite Ht. reflexivity.
Qed.

Lemma start_index_val : start_index = -3.
Proof. reflexivity. Qed.

Lemma end_index_val : end_index = 4.
Proof. reflexivity. Qed.

Lemma track_ok_snoc (l0 : list (Z * Z)) (a b : Z * Z) :
  track_ok (l0 ++ [a]) -> adjacent a b = true -> in_band (fst b) = true ->
  track_ok ((l0 ++ [a]) ++ [b]).
Proof.
  intros [Hp Hb] Hab Hin. split.
  - apply path_snoc; assumption.
  - apply in_band_snoc; assumption.
Qed.

Lemma track_ok_first (a : GenAcc) :
  gen_ok a -> exists l0, acc_tiles a ++ [(acc_last_x a, acc_last_y a)] =
                         l0 ++ [(acc_last_x a, acc_last_y a)] /\
                         track_ok (l0 ++ [(acc_last_x a, acc_last_y a)]).
Proof.
  intros (Hok & Hx & Hl). exists (acc_tiles a). split; [reflexivity|].
  destruct Hl as [E | (l0 & y & E & Ey)].
  - rewrite E. split; simpl; [reflexivity|]. rewrite Hx. reflexivity.
  - rewrite E in *. apply track_ok_snoc; [exact Hok | | exact Hx].
    unfold adjacent. simpl. rewrite Ey, !Z.eqb_refl. reflexivity.
Qed.

Lemma in_band_spec (x : Z) : in_band x = true <-> -3 <= x <= 4.
Proof. unfold in_band. rewrite start_index_val, end_index_val. lia. Qed.

Lemma adjacent_ahead (x y : Z) : adjacent (x, y) (x, y + 1) = true.
Proof. unfold adjacent. simpl. rewrite !Z.eqb_refl. reflexivity. Qed.

Lemma adjacent_right (x y : Z) : adjacent (x, y) (x + 1, y) = true.
Proof. unfold adjacent. simpl. rewrite !Z.eqb_refl. simpl. apply orb_true_r. Qed.

Lemma adjacent_left (x y : Z) : adjacent (x, y) (x - 1, y) = true.
Proof.
  unfold adjacent. simpl. rewrite !Z.eqb_refl. rewrite orb_true_r. apply orb_true_r.
Qed.

(** A turn: the tile aside, then the tile ahead of it. *)
Lemma track_ok_turn (l0 : list (Z * Z)) (x y x' : Z) :
  track_ok (l0 ++ [(x, y)]) -> adjacent (x, y) (x', y) = true -> in_band x' = true ->
  track_ok (((l0 ++ [(x, y)]) ++ [(x', y)]) ++ [(x', y + 1)]).
Proof.
  intros H Ha Hb.
  apply track_ok_snoc; [apply track_ok_snoc; assumption | apply adjacent_ahead | exact Hb].
Qed.

Lemma gen_step_ok (a : GenAcc) : gen_ok a -> gen_ok (gen_step a).
Proof.
  intros Hok.
  destruct (track_ok_first a Hok) as (l0 & El & H1).
  destruct Hok as (_ & Hx & _). apply in_band_spec in Hx.
  unfold gen_step. destruct (randint 0 2 (acc_rng a)) as [r g].
  rewrite start_index_val, end_index_val.
  set (x := acc_last_x a) in *. set (y := acc_last_y a) in *.
  rewrite El.
  destruct (x <=? -3) eqn:E1; destruct (x >=? 4) eqn:E2; try lia.
  - (* at the left edge: a right turn *)
    change (1 =? 1) with true. cbv iota.
    split; [|split]; cbn [acc_tiles acc_last_x acc_last_y].
    + apply track_ok_turn; [exact H1 | apply adjacent_right | apply in_band_spec; lia].
    + apply in_band_spec; lia.
    + right. eexists. exists (y + 1). split; reflexivity.
  - (* at the right edge: a left turn *)
    change (2 =? 1) with false. change (2 =? 2) with true. cbv iota.
    split; [|split]; cbn [acc_tiles acc_last_x acc_last_y].
    + apply track_ok_turn; [exact H1 | apply adjacent_left | apply in_band_spec; lia].
    + apply in_band_spec; lia.
    + right. eexists. exists (y + 1). split; reflexivity.
  - destruct (r =? 1); [|destruct (r =? 2)];
      (split; [|split]); cbn [acc_tiles acc_last_x acc_last_y].
    + apply track_ok_turn; [exact H1 | apply adjacent_right | apply in_band_spec; lia].
    + apply in_band_spec; lia.
    + right. eexists. exists (y + 1). split; reflexivity.
    + apply track_ok_turn; [exact H1 | apply adjacent_left | apply in_band_spec; lia].
    + apply in_band_spec; lia.
    + right. eexists. exists (y + 1). split; reflexivity.
    + exact H1.
    + apply in_band_spec; lia.
    + right. exists l0, y. split; reflexivity.
Qed.

Lemma gen_loop_ok (n : nat) : forall a, gen_ok a -> gen_ok (gen_loop n a).
Proof.
  induction n as [|n IH]; intros a H; [exact H|].
  simpl. apply IH. apply gen_step_ok. exact H.
Qed.

(** The loop only appends. *)
Lemma gen_step_appends (a : GenAcc) :
  exists new, acc_tiles (gen_step a) = acc_tiles a ++ new.
Proof.
  unfold gen_step. destruct (randint 0 2 (acc_rng a)) as [r g].
  repeat match goal with
         | |- context [if ?c then _ else _] => destruct c
         end; cbn [acc_tiles]; rewrite <- ?app_assoc; eexists; reflexivity.
Qed.

Lemma gen_loop_appends (n : nat) :
  forall a, exists new, acc_tiles (gen_loop n a) = acc_tiles a ++ new.
Proof.
  induction n as [|n IH]; intros a.
  - exists []. simpl. rewrite app_nil_r. reflexivity.
  - simpl. destruct (IH (gen_step a)) as (n2 & E2).
    destruct (gen_step_appends a) as (n1 & E1).
    exists (n1 ++ n2). rewrite E2, E1, app_assoc. reflexivity.
Qed.

(** The tiles after a call of the generator, without the rest of the state. *)
Lemma _generate_tiles_coordinates_tiles (st : Game) :
  exists last_x last_y,
    (last_x, last_y) =
    match rev (evict (current_y_loop st) (tiles_coordinates st)) with
    | last_coordinate :: _ => (fst last_coordinate, snd last_coordinate + 1)
    | [] => (0, 5)
    end /\
    tiles_coordinates (_generate_tiles_coordinates st) =
    acc_tiles
      (gen_loop (NB_TILES - length (evict (current_y_loop st) (tiles_coordinates st)))
         {| acc_tiles := evict (current_y_loop st) (tiles_coordinates st);
            acc_last_x := last_x; acc_last_y := last_y; acc_rng := rng st |}).
Proof.
  unfold _generate_tiles_coordinates.
  cbn [current_y_loop tiles_coordinates rng set_gen_calls].
  destruct (match rev _ with [] => _ | _ :: _ => _ end) as [last_x last_y].
  exists last_x, last_y. split; [reflexivity|].
  match goal with |- context [_maybe_spawn_obstacle ?s] =>
    destruct (_maybe_spawn_obstacle_shape s) as (o & g & E & _); rewrite E end.
  reflexivity.
Qed.

Lemma rev_cons_snoc {A : Type} (l r : list A) (a : A) :
  rev l = a :: r -> l = rev r ++ [a].
Proof.
  intros H. rewrite <- (rev_involutive l), H. reflexivity.
Qed.

(** A call of the generator on a sound track leaves a sound track. *)
Lemma _generate_tiles_coordinates_ok (st : Game) :
  track_ok (tiles_coordinates st) ->
  track_ok (tiles_coordinates (_generate_tiles_coordinates st)).
Proof.
  intros [Hp Hb].
  destruct (_generate_tiles_coordinates_tiles st) as (last_x & last_y & El & Et).
  rewrite Et. apply gen_loop_ok.
  set (kept := evict (current_y_loop st) (tiles_coordinates st)) in *.
  assert (Hk : track_ok kept).
  { split; [apply evict_path | apply evict_in_band]; assumption. }
  split; [exact Hk|]. cbn [acc_tiles acc_last_x acc_last_y].
  destruct (rev kept) as [|c r] eqn:Er.
  - injection El as -> ->. split; [reflexivity|]. left.
    destruct kept; [reflexivity|]. simpl in Er.
    apply (f_equal (@length _)) in Er. rewrite length_app in Er. simpl in Er. lia.
  - injection El as -> ->. apply rev_cons_snoc in Er.
    split.
    + destruct Hk as [_ Hk]. rewrite forallb_forall in Hk. apply Hk.
      rewrite Er. apply in_or_app. right. left. reflexivity.
    + right. exists (rev r), (snd c). split; [|reflexivity].
      rewrite Er. destruct c; reflexivity.
Qed.

(** ** Invariants of the running game *)

Lemma same_core_ok (st st' : Game) : same_core st st' -> game_ok st -> game_ok st'.
Proof.
  intros (E1 & E2 & E3 & E4 & E5) [H1 H2 H3 H4 H5].
  constructor; rewrite ?E1, ?E2, ?E3, ?E4, ?E5; assumption.
Qed.

Lemma same_core_refl (st : Game) : same_core st st.
Proof. repeat split. Qed.

Lemma same_core_trans (a b c : Game) : same_core a b -> same_core b c -> same_core a c.
Proof.
  intros (A1 & A2 & A3 & A4 & A5) (B1 & B2 & B3 & B4 & B5).
  repeat split; congruence.
Qed.

Lemma _update_obstacles_core (st : Game) : same_core st (_update_obstacles st).
Proof.
  unfold _update_obstacles. repeat split.
  cbn [obstacle_coords set_obstacle_coords]. apply length_map.
Qed.

Lemma _update_jump_timers_core (dt : Q) (st : Game) :
  same_core st (_update_jump_timers dt st).
Proof. unfold _update_jump_timers. split_ifs; repeat split. Qed.

Lemma frame_prelude_core (now : Q) (st : Game) : same_core st (frame_prelude now st).
Proof.
  unfold frame_prelude.
  generalize (_update_jump_timers_core (fsub now (last_time st)) (set_last_time now st)).
  generalize (_update_jump_timers (fsub now (last_time st)) (set_last_time now st)).
  intros s Hs.
  apply (same_core_trans st s);
    [apply (same_core_trans st (set_last_time now st)); [repeat split | exact Hs]|].
  generalize (_update_obstacles_core s). generalize (_update_obstacles s).
  intros s' Hs'.
  apply (same_core_trans s s'); [exact Hs' | repeat split].
Qed.

Lemma _on_game_over_core (st : Game) : same_core st (_on_game_over st).
Proof.
  unfold _on_game_over.
  cbn [high_score current_y_loop set_state_game_over set_state_game_has_started].
  destruct (_ <? _); repeat split.
Qed.

Lemma _try_jump_core (st : Game) : same_core st (_try_jump st).
Proof.
  unfold _try_jump.
  destruct (_ || _); [apply same_core_refl|].
  destruct (jump_active st); [apply same_core_refl|].
  destruct (Qltb _ _); repeat split.
Qed.

Lemma _toggle_pause_core (st : Game) : same_core st (_toggle_pause st).
Proof. unfold _toggle_pause. destruct (_ || _); repeat split. Qed.

Lemma _update_tile_color_by_score_level (st : Game) :
  level (_update_tile_color_by_score st) =
  if 0 <? current_y_loop st / 100 then current_y_loop st / 100 else level st.
Proof.
  unfold _update_tile_color_by_score.
  set (s := set_progress_calls (S (progress_calls st)) st).
  change (current_y_loop st) with (current_y_loop s).
  change (level st) with (level s).
  clearbody s. clear st. rename s into st.
  cbn [level set_current_tile_color].
  destruct (0 <? current_y_loop st / 100) eqn:E1; simpl.
  - destruct (current_y_loop st / 100 =? level st) eqn:E2; simpl; [|reflexivity].
    apply Z.eqb_eq in E2. symmetry. exact E2.
  - reflexivity.
Qed.

Lemma row_crossing_ok (st : Game) : game_ok st -> game_ok (row_crossing st).
Proof.
  intros [H1 H2 H3 H4 H5].
  unfold row_crossing.
  set (st1 := set_current_y_loop _ (set_current_offset_y _ st)).
  pose proof (_update_tile_color_by_score_level st1) as Hl.
  destruct (_update_tile_color_by_score_shape st1) as (c & sy & sx & l & E1).
  set (st2 := _update_tile_color_by_score st1) in *.
  pose proof (_generate_tiles_coordinates_ok st2) as Ht.
  destruct (_generate_tiles_coordinates_shape st2) as (t & o & g & E2 & Ho).
  set (st3 := _generate_tiles_coordinates st2) in *.
  assert (Ec : current_y_loop st3 = current_y_loop st + 1) by (rewrite E2, E1; reflexivity).
  assert (Ea : allow_collisions st3 = allow_collisions st) by (rewrite E2, E1; reflexivity).
  assert (El : level st3 = (current_y_loop st + 1) / 100).
  { transitivity (level st2); [rewrite E2; reflexivity|].
    rewrite Hl. change (current_y_loop st1) with (current_y_loop st + 1).
    change (level st1) with (level st). rewrite H2.
    destruct (0 <? _) eqn:E; [reflexivity|].
    apply Z.ltb_ge in E. change (current_y_loop st1) with (current_y_loop st + 1) in E.
    revert E. Z.div_mod_to_equations. lia. }
  assert (Hp : length (obstacle_coords st3) = MAX_OBSTACLES).
  { rewrite E2. cbn [obstacle_coords set_obstacle_coords]. rewrite Ho, E1. exact H4. }
  assert (Hk : track_ok (tiles_coordinates st3)).
  { apply Ht. rewrite E1. exact H5. }
  rewrite <- Ec in El.
  assert (Hr : 0 <= current_y_loop st3) by lia.
  destruct (negb (allow_collisions st3) && (COLLISION_START_LOOP <=? current_y_loop st3))
    eqn:E.
  - apply andb_true_iff in E. destruct E as [_ E].
    constructor; try assumption. cbn [allow_collisions set_allow_collisions current_y_loop].
    symmetry. exact E.
  - constructor; try assumption.
    rewrite Ea, H3 in *. rewrite Ec in *. unfold COLLISION_START_LOOP in *. lia.
Qed.

Lemma row_loop_ok (fuel : nat) :
  forall st st', game_ok st -> row_loop fuel st = Some st' -> game_ok st'.
Proof.
  induction fuel as [|fuel IH]; intros st st' Hok; cbn [row_loop];
    destruct (Qleb spacing_y (current_offset_y st)); try discriminate;
    try (intros E; injection E as <-; exact Hok).
  apply IH. apply row_crossing_ok. exact Hok.
Qed.

Lemma play_frame_ok (fuel : nat) (time_factor : Q) (st st' : Game) :
  game_ok st -> play_frame fuel time_factor st = Some st' -> game_ok st'.
Proof.
  intros Hok. unfold play_frame.
  match goal with |- context [row_loop fuel ?s] =>
    assert (H2 : game_ok s) by (apply (same_core_ok st); [repeat split | exact Hok]);
    destruct (row_loop fuel s) as [st3|] eqn:Er; [|discriminate]
  end.
  pose proof (row_loop_ok fuel _ _ H2 Er) as H3. clear Er H2.
  match goal with |- context [_check_ship_collisions ?s] =>
    assert (H4 : game_ok s) by (apply (same_core_ok st3); [repeat split | exact H3]);
    revert H4; generalize s
  end.
  intros st4 H4.
  destruct (_ || _); intros E; injection E as <-; [|exact H4].
  apply (same_core_ok _ _ (_on_game_over_core _) H4).
Qed.

Lemma _game_loop_ok (fuel : nat) (now : Q) (st st' : Game) :
  game_ok st -> _game_loop fuel now st = Some st' -> game_ok st'.
Proof.
  intros Hok. rewrite _game_loop_unfold.
  generalize (same_core_ok _ _ (frame_prelude_core now st) Hok).
  generalize (frame_prelude now st). intros st1 H1.
  destruct (playing st).
  - apply play_frame_ok. exact H1.
  - intros E; injection E as <-. exact H1.
Qed.

Lemma _reset_tiles_effect (st : Game) :
  current_y_loop (_reset_tiles st) = current_y_loop st /\
  level (_reset_tiles st) = level st /\
  allow_collisions (_reset_tiles st) = allow_collisions st /\
  length (obstacle_coords (_reset_tiles st)) = length (obstacle_coords st) /\
  track_ok (tiles_coordinates (_reset_tiles st)).
Proof.
  unfold _reset_tiles.
  match goal with |- context [_generate_tiles_coordinates ?s] =>
    pose proof (_generate_tiles_coordinates_ok s) as Ht;
    destruct (_generate_tiles_coordinates_shape s) as (t & o & g & E & Ho);
    set (st' := _generate_tiles_coordinates s) in *
  end.
  clearbody st'.
  split; [|split; [|split; [|split]]]; try (rewrite E; reflexivity).
  - rewrite E. cbn [obstacle_coords set_obstacle_coords]. exact Ho.
  - apply Ht. split; vm_compute; reflexivity.
Qed.

Lemma length_fold_list_set {A : Type} (v : A) (idxs : list nat) :
  forall l, length (fold_left (fun l i => list_set i v l) idxs l) = length l.
Proof.
  induction idxs as [|i idxs IH]; intros l; [reflexivity|].
  simpl. rewrite IH. apply length_list_set.
Qed.

(** A state whose row, level and collision switch are those of a fresh
    game, with a full pool and a sound track. *)
Lemma fresh_ok (st : Game) :
  current_y_loop st = 0 -> level st = 0 -> allow_collisions st = false ->
  length (obstacle_coords st) = MAX_OBSTACLES -> track_ok (tiles_coordinates st) ->
  game_ok st.
Proof.
  intros E1 E2 E3 E4 E5. constructor; rewrite ?E1, ?E2, ?E3; try assumption.
  - lia.
  - reflexivity.
  - reflexivity.
Qed.

Lemma reset_game_ok (st : Game) :
  length (obstacle_coords st) = MAX_OBSTACLES -> game_ok (reset_game st).
Proof.
  intros Hp. unfold reset_game.
  match goal with |- context [_reset_tiles ?s] =>
    generalize (_reset_tiles_effect s); generalize (_reset_tiles s)
  end.
  intros st' (E1 & E2 & E3 & E4 & E5).
  apply (same_core_ok st'); [repeat split|].
  apply fresh_ok; [exact E1 | exact E2 | exact E3 | | exact E5].
  rewrite E4. change (length (obstacle_coords ?s)) with
                (length (fold_left (fun l i => list_set i SENTINEL l)
                                   (seq 0 MAX_OBSTACLES) (obstacle_coords st))).
  rewrite length_fold_list_set. exact Hp.
Qed.

Lemma init_game_ok (g : Rng) (f : HighscoreFile) (hs : Z) (now : Q) :
  game_ok (init_game g f hs now).
Proof.
  unfold init_game.
  match goal with |- context [_reset_tiles ?s] =>
    generalize (_reset_tiles_effect s); generalize (_reset_tiles s)
  end.
  intros st' (E1 & E2 & E3 & E4 & E5).
  apply fresh_ok.
  - exact E1.
  - exact E2.
  - exact E3.
  - change (length (obstacle_coords st' ++ repeat SENTINEL MAX_OBSTACLES) = MAX_OBSTACLES).
    rewrite length_app, E4, repeat_length. reflexivity.
  - exact E5.
Qed.

Lemma handle_ok (fuel : nat) (e : Event) (st st' : Game) :
  game_ok st -> handle fuel e st = Some st' -> game_ok st'.
Proof.
  intros Hok. destruct e as [now | k | k | x | | d |]; simpl.
  - apply _game_loop_ok. exact Hok.
  - intros E; injection E as <-. apply (same_core_ok st); [|exact Hok].
    destruct k; simpl; try (repeat split; fail);
      [apply _toggle_pause_core | apply _try_jump_core].
  - intros E; injection E as <-. apply (same_core_ok st); [|exact Hok].
    destruct k; repeat split.
  - intros E; injection E as <-. apply (same_core_ok st); [|exact Hok].
    unfold _on_mouse_down. destruct (_ && _); [destruct (Qltb _ _)|]; repeat split.
  - intros E; injection E as <-. apply (same_core_ok st); [|exact Hok]. repeat split.
  - intros E; injection E as <-. apply (same_core_ok st); [|exact Hok]. repeat split.
  - intros E; injection E as <-. unfold on_menu_button_pressed.
    generalize (reset_game_ok (_on_difficulty_changed st) (ok_pool st Hok)).
    generalize (reset_game (_on_difficulty_changed st)).
    intros s Hs. apply (same_core_ok s); [repeat split | exact Hs].
Qed.

(** Every state the game goes through is sound. *)
Lemma reachable_ok (st : Game) : reachable st -> game_ok st.
Proof.
  induction 1 as [g f hs now | st e fuel st' _ IH Hh].
  - apply init_game_ok.
  - apply (handle_ok fuel e st st' IH Hh).
Qed.

(** ** Progression *)




Lemma menu_reachable : reachable Sample.menu.
Proof. apply reach_init. Qed.

Lemma started_reachable : reachable Sample.started.
Proof.
  apply (reach_step Sample.menu MenuButton 0 _ menu_reachable). reflexivity.
Qed.



(** ** Collisions *)

Lemma in_box_spec (lo hi p : Q * Q) :
  in_box lo hi p = true <->
  (fst lo <= fst p)%Q /\ (fst p <= fst hi)%Q /\ (snd lo <= snd p)%Q /\ (snd p <= snd hi)%Q.
Proof.
  unfold in_box. rewrite !andb_true_iff, !Qleb_true. tauto.
Qed.

Lemma near_ship_spec (st : Game) (y : Z) : near_ship st y = true <-> in_window st y.
Proof. unfold near_ship, in_window. lia. Qed.

Lemma _check_ship_collision_with_tile_spec (st : Game) (t : Z * Z) :
  _check_ship_collision_with_tile st (fst t) (snd t) = true <->
  exists p, In p (ship_coordinates st) /\ tile_contains st t p.
Proof.
  unfold _check_ship_collision_with_tile, tile_contains.
  rewrite existsb_exists.
  split; intros (p & Hp & H); exists p; (split; [exact Hp|]); apply in_box_spec; exact H.
Qed.

(** With collisions switched on, the ship is off the track exactly when no
    tile of the window holds one of its vertices. *)
Lemma _check_ship_collisions_spec (st : Game) :
  allow_collisions st = true ->
  (_check_ship_collisions st = true <->
   forall t p, In t (tiles_coordinates st) -> in_window st (snd t) ->
               In p (ship_coordinates st) -> ~ tile_contains st t p).
Proof.
  intros Ha. unfold _check_ship_collisions. rewrite Ha.
  change (negb true) with false. cbv iota.
  rewrite negb_true_iff. split.
  - intros He t p Ht Hw Hp Hc.
    assert (Hx : existsb (fun t => near_ship st (snd t) &&
                   _check_ship_collision_with_tile st (fst t) (snd t))
                   (tiles_coordinates st) = true).
    { apply existsb_exists. exists t. split; [exact Ht|].
      apply andb_true_iff. split; [apply near_ship_spec; exact Hw|].
      apply _check_ship_collision_with_tile_spec. exists p. split; assumption. }
    congruence.
  - intros H.
    destruct (existsb _ _) eqn:E; [|reflexivity].
    apply existsb_exists in E. destruct E as (t & Ht & E).
    apply andb_true_iff in E. destruct E as [Hw Hc].
    apply near_ship_spec in Hw.
    apply _check_ship_collision_with_tile_spec in Hc. destruct Hc as (p & Hp & Hc).
    exfalso. exact (H t p Ht Hw Hp Hc).
Qed.

(** C2. In every state of a run and for every position of the ship: below
    row [COLLISION_START_LOOP] the off-track check reports no collision;
    from that row on, a tile of the window [current_y_loop - 1 ..
    current_y_loop + 2] whose box holds a vertex of the ship passes the
    per-tile test and the off-track check reports no collision; and the
    off-track check reports a collision exactly when no tile of the window
    holds a vertex. *)
Theorem ship_off_track_check (st : Game) (ship : list (Q * Q)) :
  reachable st ->
  let st' := set_ship_coordinates ship st in
  (current_y_loop st < COLLISION_START_LOOP -> _check_ship_collisions st' = false) /\
  (COLLISION_START_LOOP <= current_y_loop st ->
   (forall t p, In t (tiles_coordinates st) -> in_window st (snd t) ->
                In p ship -> tile_contains st t p ->
                _check_ship_collision_with_tile st' (fst t) (snd t) = true /\
                _check_ship_collisions st' = false) /\
   (_check_ship_collisions st' = true <->
    forall t p, In t (tiles_coordinates st) -> in_window st (snd t) ->
                In p ship -> ~ tile_contains st t p)).
Proof.
  intros Hr st'. pose proof (reachable_ok st Hr) as [_ _ Ha _ _].
  split.
  - intros Hlt. unfold _check_ship_collisions.
    change (allow_collisions st') with (allow_collisions st).
    rewrite Ha. apply Z.leb_gt in Hlt. rewrite Hlt. reflexivity.
  - intros Hge. apply Z.leb_le in Hge. rewrite Hge in Ha.
    assert (Ha' : allow_collisions st' = true) by exact Ha.
    pose proof (_check_ship_collisions_spec st' Ha') as Hs.
    split; [|exact Hs].
    intros t p Ht Hw Hp Hc.
    assert (Hin : exists q, In q (ship_coordinates st') /\ tile_contains st' t q)
      by (exists p; split; assumption).
    split; [apply _check_ship_collision_with_tile_spec; exact Hin|].
    destruct (_check_ship_collisions st') eqn:E; [|reflexivity].
    exfalso. apply (proj1 Hs eq_refl t p Ht Hw Hp Hc).
Qed.

Lemma row_6_reachable : reachable Sample.row_6.
Proof.
  apply (reach_step Sample.started (Frame 2) 10 _ started_reachable).
  vm_compute. reflexivity.
Qed.

Lemma ship_off_track_check_witness :
  (reachable Sample.started /\
   current_y_loop Sample.started < COLLISION_START_LOOP /\
   _check_ship_collisions
     (set_ship_coordinates (ship_coordinates Sample.row_6) Sample.started) = false) /\
  (reachable Sample.row_6 /\
   COLLISION_START_LOOP <= current_y_loop Sample.row_6 /\
   In (0, 6) (tiles_coordinates Sample.row_6) /\
   in_window Sample.row_6 6 /\
   In Sample.tip (ship_coordinates Sample.row_6) /\
   tile_contains Sample.row_6 (0, 6) Sample.tip /\
   _check_ship_collisions
     (set_ship_coordinates (ship_coordinates Sample.row_6)
        Sample.row_6) = false).
Proof.
  pose proof started_reachable as R0.
  pose proof row_6_reachable as R6.
  assert (H0 : current_y_loop Sample.started < COLLISION_START_LOOP) by by_eval.
  assert (H6 : COLLISION_START_LOOP <= current_y_loop Sample.row_6) by by_eval.
  assert (Ht : In (0, 6) (tiles_coordinates Sample.row_6))
    by (vm_compute; left; reflexivity).
  assert (Hw : in_window Sample.row_6 6) by (split; by_eval).
  assert (Hp : In Sample.tip (ship_coordinates Sample.row_6))
    by (vm_compute; right; left; reflexivity).
  assert (Hc : tile_contains Sample.row_6 (0, 6) Sample.tip)
    by (unfold tile_contains; repeat split; by_eval).
  destruct (ship_off_track_check Sample.started (ship_coordinates Sample.row_6) R0)
    as (A & _).
  destruct (ship_off_track_check Sample.row_6
              (ship_coordinates Sample.row_6) R6) as (_ & B).
  split.
  - exact (conj R0 (conj H0 (A H0))).
  - exact (conj R6 (conj H6 (conj Ht (conj Hw (conj Hp (conj Hc
             (proj2 (proj1 (B H6) (0, 6) Sample.tip Ht Hw Hp Hc)))))))).
Defined.

(** Rounding decides a ship on the very edge of the track: the right edge
    of lane 0 is 460.8 rounded down, the left wing of the ship 460.8
    rounded up, no tile of the window holds a vertex, and the game is
    over. *)
Lemma grazing_ship_ends_game :
  reachable Sample.grazing /\
  current_y_loop Sample.grazing = 6 /\
  (fst (get_tile_coordinates Sample.grazing 1 7) < 4608 # 10)%Q /\
  (4608 # 10 < fst (nth 0 (ship_coordinates Sample.grazing) (0, 0)%Q))%Q /\
  state_game_over Sample.grazing = true.
Proof.
  split; [|repeat split; by_eval].
  assert (R1 : reachable (_on_key_down KRight Sample.started))
    by (apply (reach_step Sample.started (KeyDown KRight) 0 _ started_reachable);
        reflexivity).
  assert (R2 : reachable Sample.steered)
    by (apply (reach_step _ (Frame (round64 (5 # 42))) 10 _ R1);
        vm_compute; reflexivity).
  assert (R3 : reachable (_on_key_up KRight Sample.steered))
    by (apply (reach_step Sample.steered (KeyUp KRight) 0 _ R2); reflexivity).
  apply (reach_step _ (Frame 2) 10 _ R3). vm_compute. reflexivity.
Qed.

(** ** The obstacle pool *)

Lemma coord_eqb_eq (a b : Z * Z) : coord_eqb a b = true <-> a = b.
Proof.
  unfold coord_eqb. destruct a as [a1 a2], b as [b1 b2]. simpl.
  rewrite andb_true_iff, !Z.eqb_eq. split; [intros [-> ->]; reflexivity|].
  intros E; injection E as -> ->. split; reflexivity.
Qed.

Lemma index_Some (v : Z * Z) (l : list (Z * Z)) :
  forall i, index v l = Some i -> nth_error l i = Some v.
Proof.
  induction l as [|a l IH]; intros i; simpl; [discriminate|].
  destruct (coord_eqb a v) eqn:E.
  - intros H; injection H as <-. apply coord_eqb_eq in E. subst a. reflexivity.
  - destruct (index v l) as [j|]; simpl; [|discriminate].
    intros H; injection H as <-. simpl. apply IH. reflexivity.
Qed.

Lemma index_None (v : Z * Z) (l : list (Z * Z)) :
  (forall t, In t l -> t <> v) -> index v l = None.
Proof.
  induction l as [|a l IH]; intros H; simpl; [reflexivity|].
  destruct (coord_eqb a v) eqn:E.
  - apply coord_eqb_eq in E. exfalso. apply (H a); [left; reflexivity | exact E].
  - rewrite IH; [reflexivity|]. intros t Ht. apply H. right. exact Ht.
Qed.

Lemma nth_error_list_set {A : Type} (v : A) (l : list A) :
  forall i j, nth_error (list_set i v l) j =
              if (j =? i)%nat then option_map (fun _ => v) (nth_error l j)
              else nth_error l j.
Proof.
  induction l as [|a l IH]; intros i j.
  - destruct i, j; simpl; try reflexivity. destruct (_ =? _)%nat; reflexivity.
  - destruct i as [|i], j as [|j]; simpl; try reflexivity. apply IH.
Qed.

(** [random.choice] returns a member of a sequence that is not empty. *)
Lemma choice_In {A : Type} (d : A) (seq : list A) (g : Rng) :
  seq <> [] -> In (fst (choice d seq g)) seq.
Proof.
  intros Hne. unfold choice. destruct (rng_draw g) as [n g']. simpl.
  apply nth_In.
  assert (0 < Z.of_nat (length seq)).
  { destruct seq; [congruence|]. simpl length. lia. }
  pose proof (Z.mod_pos_bound n (Z.of_nat (length seq)) ltac:(lia)). lia.
Qed.

Lemma lane_add_spec (x : Z) (xs : list Z) :
  NoDup xs -> NoDup (lane_add x xs) /\ forall x', In x' (lane_add x xs) -> x' = x \/ In x' xs.
Proof.
  intros Hn. unfold lane_add. destruct (existsb (Z.eqb x) xs) eqn:E.
  - split; [exact Hn | auto].
  - split.
    + apply NoDup_app; [exact Hn | constructor; [intros [] | constructor] |].
      intros a Ha [Hxa | []]. subst a.
      assert (existsb (Z.eqb x) xs = true)
        by (apply existsb_exists; exists x; split; [exact Ha | apply Z.eqb_refl]).
      congruence.
    + intros x' H. apply in_app_or in H. destruct H as [H | [<- | []]]; auto.
Qed.

Lemma rows_add_ok (cur : Z) (tiles : list (Z * Z)) (y x : Z) (rows : list (Z * list Z)) :
  In (x, y) tiles -> cur + 1 < y -> rows_ok cur tiles rows ->
  rows_ok cur tiles (rows_add y x rows).
Proof.
  intros Hin Hy. induction rows as [|[y' xs'] rows IH]; intros Hok y0 xs0 H0.
  - simpl in H0. destruct H0 as [E | []]. injection E as <- <-.
    split; [constructor; [intros [] | constructor]|].
    split; [exact Hy|]. intros x' [<- | []]. exact Hin.
  - simpl in H0. destruct (y' =? y) eqn:E.
    + apply Z.eqb_eq in E. subst y'.
      destruct H0 as [E0 | H0]; [|apply Hok; right; exact H0].
      injection E0 as <- <-.
      destruct (Hok y xs' (or_introl eq_refl)) as (Hn & _ & Hl).
      destruct (lane_add_spec x xs' Hn) as (Hn' & Hs).
      split; [exact Hn'|]. split; [exact Hy|].
      intros x' Hx'. destruct (Hs x' Hx') as [-> | Hx]; [exact Hin | apply Hl; exact Hx].
    + destruct H0 as [E0 | H0].
      * apply Hok. left. exact E0.
      * apply IH; [|exact H0]. intros y1 xs1 H1. apply Hok. right. exact H1.
Qed.

Lemma group_rows_ok (cur : Z) (tiles : list (Z * Z)) :
  rows_ok cur tiles (group_rows cur tiles).
Proof.
  unfold group_rows.
  assert (G : forall l rows, (forall t, In t l -> In t tiles) -> rows_ok cur tiles rows ->
              rows_ok cur tiles
                (fold_left (fun rows t => if snd t <=? cur + 1 then rows
                                          else rows_add (snd t) (fst t) rows) l rows)).
  { induction l as [|t l IH]; intros rows Hl Hok; [exact Hok|].
    simpl. apply IH; [intros t' Ht'; apply Hl; right; exact Ht'|].
    destruct (snd t <=? cur + 1) eqn:E; [exact Hok|].
    apply rows_add_ok; [|lia|exact Hok].
    rewrite <- surjective_pairing. apply Hl. left. reflexivity. }
  apply G; [auto|]. intros y xs [].
Qed.

Lemma other_lane (xs : list Z) (x : Z) :
  NoDup xs -> (2 <= length xs)%nat -> exists x', In x' xs /\ x' <> x.
Proof.
  intros Hn Hl. destruct xs as [|a [|b xs]]; simpl in Hl; try lia.
  inversion Hn as [|? ? Ha _]; subst.
  destruct (Z.eq_dec x a) as [-> | Hne].
  - exists b. split; [right; left; reflexivity|].
    intros ->. apply Ha. left. reflexivity.
  - exists a. split; [left; reflexivity | congruence].
Qed.

Lemma spawn_candidates_spec (cur : Z) (tiles : list (Z * Z)) (row : Z) (xs : list Z) :
  In (row, xs) (spawn_candidates cur tiles) ->
  (2 <= length xs)%nat /\ NoDup xs /\ cur + 1 < row /\
  forall x, In x xs -> In (x, row) tiles.
Proof.
  unfold spawn_candidates. intros H. apply filter_In in H. destruct H as [Hin Hlen].
  cbn [snd] in Hlen. apply Nat.leb_le in Hlen.
  destruct (group_rows_ok cur tiles row xs Hin) as (Hn & Hy & Hl). auto.
Qed.

(** A call of the spawn leaves the pool as it is, or writes into the first
    free slot a lane of a candidate row. *)
Lemma _maybe_spawn_obstacle_cases (st : Game) :
  obstacle_coords (_maybe_spawn_obstacle st) = obstacle_coords st \/
  exists idx row xs x,
    index SENTINEL (obstacle_coords st) = Some idx /\
    In (row, xs) (spawn_candidates (current_y_loop st) (tiles_coordinates st)) /\
    In x xs /\
    obstacle_coords (_maybe_spawn_obstacle st) =
    list_set idx (x, row) (obstacle_coords st).
Proof.
  unfold _maybe_spawn_obstacle.
  set (s := set_spawn_calls (S (spawn_calls st)) st).
  change (obstacle_coords st) with (obstacle_coords s).
  change (current_y_loop st) with (current_y_loop s).
  change (tiles_coordinates st) with (tiles_coordinates s).
  clearbody s. clear st. rename s into st.
  destruct (level st <? 1); [left; reflexivity|].
  destruct (random (rng st)) as [u g].
  destruct (Qltb (spawn_prob (level st)) u); [left; reflexivity|].
  cbn [current_y_loop tiles_coordinates set_rng].
  destruct (spawn_candidates _ _) as [|c cs] eqn:Ec; [left; reflexivity|].
  cbn [rng set_rng].
  pose proof (choice_In (0, []) (c :: cs) g ltac:(discriminate)) as Hc.
  destruct (choice (0, []) (c :: cs) g) as [[row_y xs] g1]. cbn [fst] in Hc.
  rewrite <- Ec in Hc.
  destruct (spawn_candidates_spec _ _ _ _ Hc) as (Hlen & _).
  pose proof (choice_In 0 xs g1) as Hx.
  destruct (choice 0 xs g1) as [ti_x g2]. cbn [fst] in Hx.
  cbn [obstacle_coords set_rng].
  destruct (index SENTINEL (obstacle_coords st)) as [idx|]; [|left; reflexivity].
  right. exists idx, row_y, xs, ti_x.
  split; [reflexivity|]. split; [rewrite <- Ec; exact Hc|]. split; [|reflexivity].
  apply Hx. intros ->. simpl in Hlen. lia.
Qed.

Lemma active_obstacles_le (st : Game) :
  (active_obstacles st <= length (obstacle_coords st))%nat.
Proof. unfold active_obstacles. apply filter_length_le. Qed.

(** C3. In every state of a run at most [MAX_OBSTACLES] slots of the pool
    hold an obstacle.  A call of [_maybe_spawn_obstacle] never changes the
    size of the pool; a slot it changes was free, and the obstacle it
    receives lies on a tile of a row beyond [current_y_loop + 1] that has a
    tile in another lane as well; when no slot is free the pool is left as
    it is. *)
Theorem obstacle_pool_and_spawn (st : Game) :
  (reachable st -> (active_obstacles st <= MAX_OBSTACLES)%nat) /\
  length (obstacle_coords (_maybe_spawn_obstacle st)) = length (obstacle_coords st) /\
  (forall i t,
     nth_error (obstacle_coords (_maybe_spawn_obstacle st)) i = Some t ->
     nth_error (obstacle_coords st) i <> Some t ->
     nth_error (obstacle_coords st) i = Some SENTINEL /\
     current_y_loop st + 1 < snd t /\
     In t (tiles_coordinates st) /\
     exists x', x' <> fst t /\ In (x', snd t) (tiles_coordinates st)) /\
  ((forall t, In t (obstacle_coords st) -> t <> SENTINEL) ->
   obstacle_coords (_maybe_spawn_obstacle st) = obstacle_coords st).
Proof.
  split; [|split; [|split]].
  - intros Hr. rewrite <- (ok_pool st (reachable_ok st Hr)). apply active_obstacles_le.
  - destruct (_maybe_spawn_obstacle_shape st) as (o & g & E & Hl).
    rewrite E. exact Hl.
  - intros i t Hnew Hold.
    destruct (_maybe_spawn_obstacle_cases st)
      as [E | (idx & row & xs & x & Hi & Hc & Hx & E)];
      rewrite E in Hnew; [congruence|].
    rewrite nth_error_list_set in Hnew.
    destruct (i =? idx)%nat eqn:Ei; [|congruence].
    apply Nat.eqb_eq in Ei. subst i.
    pose proof (index_Some _ _ _ Hi) as Hs. rewrite Hs in Hnew. simpl in Hnew.
    injection Hnew as <-.
    destruct (spawn_candidates_spec _ _ _ _ Hc) as (Hlen & Hn & Hy & Hl).
    split; [exact Hs|]. split; [exact Hy|]. split; [apply Hl; exact Hx|].
    destruct (other_lane xs x Hn Hlen) as (x' & Hx' & Hne).
    exists x'. split; [exact Hne | apply Hl; exact Hx'].
  - intros Hfull.
    destruct (_maybe_spawn_obstacle_cases st)
      as [E | (idx & row & xs & x & Hi & _)]; [exact E|].
    rewrite (index_None _ _ Hfull) in Hi. discriminate Hi.
Qed.

Lemma row_102_reachable : reachable Sample.row_102.
Proof.
  apply (reach_step Sample.started (Frame 32) 200 _ started_reachable).
  vm_compute. reflexivity.
Qed.

Lemma full_pool_full : forall t, In t (obstacle_coords Sample.full_pool) -> t <> SENTINEL.
Proof.
  intros t Ht. apply (repeat_spec 6 (0, 108) t) in Ht. subst t. discriminate.
Qed.

Lemma obstacle_pool_and_spawn_witness :
  (reachable Sample.row_102 /\
   (active_obstacles Sample.row_102 <= MAX_OBSTACLES)%nat) /\
  (nth_error (obstacle_coords (_maybe_spawn_obstacle Sample.row_102)) 3 = Some (1, 106) /\
   nth_error (obstacle_coords Sample.row_102) 3 <> Some (1, 106) /\
   current_y_loop Sample.row_102 + 1 < 106 /\
   In (1, 106) (tiles_coordinates Sample.row_102)) /\
  ((forall t, In t (obstacle_coords Sample.full_pool) -> t <> SENTINEL) /\
   obstacle_coords (_maybe_spawn_obstacle Sample.full_pool) =
   obstacle_coords Sample.full_pool).
Proof.
  pose proof row_102_reachable as Hr.
  assert (Hn : nth_error (obstacle_coords (_maybe_spawn_obstacle Sample.row_102)) 3
               = Some (1, 106)) by (vm_compute; reflexivity).
  assert (Ho : nth_error (obstacle_coords Sample.row_102) 3 <> Some (1, 106))
    by by_eval.
  destruct (obstacle_pool_and_spawn Sample.row_102) as (A & _ & B & _).
  destruct (obstacle_pool_and_spawn Sample.full_pool) as (_ & _ & _ & C).
  destruct (B 3%nat (1, 106) Hn Ho) as (_ & B2 & B3 & _).
  exact (conj (conj Hr (A Hr))
          (conj (conj Hn (conj Ho (conj B2 B3)))
                (conj full_pool_full (C full_pool_full)))).
Defined.

(** ** The track *)

Lemma path_rows_linked (l : list (Z * Z)) : path l = true -> rows_linked l.
Proof.
  induction l as [|a l IH]; intros Hp x y Hin; [destruct Hin|].
  destruct Hin as [-> | Hin]; [left; exists (x, y), l; split; reflexivity|].
  destruct l as [|b l]; [destruct Hin|].
  pose proof (path_tail a (b :: l) Hp) as Hp'.
  simpl in Hp. apply andb_true_iff in Hp. destruct Hp as [Hab _].
  destruct (IH Hp' x y Hin) as [(t0 & rest & E & Ey) | (x' & H1 & H2)].
  - injection E as <- <-.
    unfold adjacent in Hab. apply orb_true_iff in Hab.
    destruct Hab as [Hab | Hab]; apply andb_true_iff in Hab; destruct Hab as [H1 H2].
    + apply Z.eqb_eq in H1, H2. right. exists (fst b). split.
      * right. left. rewrite <- Ey. destruct b; reflexivity.
      * left. destruct a as [a1 a2]. simpl in *. f_equal; lia.
    + apply Z.eqb_eq in H2. left. exists a, (b :: l). split; [reflexivity | lia].
  - right. exists x'. split; right; assumption.
Qed.

Lemma track_ok_sound (tiles : list (Z * Z)) : track_ok tiles -> track_sound tiles.
Proof.
  intros [Hp Hb]. split; [exact Hp|]. split; [|apply path_rows_linked; exact Hp].
  intros t Ht. rewrite forallb_forall in Hb. specialize (Hb t Ht).
  unfold in_band in Hb. lia.
Qed.

Lemma gen_step_forced (a : GenAcc) :
  (acc_last_x a <= start_index -> acc_last_x (gen_step a) = acc_last_x a + 1) /\
  (end_index <= acc_last_x a -> acc_last_x (gen_step a) = acc_last_x a - 1).
Proof.
  unfold gen_step. destruct (randint 0 2 (acc_rng a)) as [r g].
  rewrite start_index_val, end_index_val.
  split; intros H.
  - destruct (acc_last_x a <=? -3) eqn:E1; [|lia].
    destruct (acc_last_x a >=? 4) eqn:E2; [lia|]. reflexivity.
  - destruct (acc_last_x a >=? 4) eqn:E2; [|lia]. reflexivity.
Qed.

Lemma track_sound_ok (tiles : list (Z * Z)) : track_sound tiles -> track_ok tiles.
Proof.
  intros (Hp & Hb & _). split; [exact Hp|].
  apply forallb_forall. intros t Ht. specialize (Hb t Ht).
  unfold in_band. lia.
Qed.

(** C4. The tiles of every state of a run form a path whose consecutive
    tiles are neighbours, every row but the first holds a tile whose lane
    is present one row back, and every lane lies in
    [start_index .. end_index].  A call of the track generator on such a
    track leaves such a track, and so does the reset of the track.  At the
    left boundary the generator turns right, at the right boundary it turns
    left. *)
Theorem track_connected_and_in_band (st : Game) :
  (reachable st -> track_sound (tiles_coordinates st)) /\
  (track_sound (tiles_coordinates st) ->
   track_sound (tiles_coordinates (_generate_tiles_coordinates st))) /\
  track_sound (tiles_coordinates (_reset_tiles st)) /\
  (forall a, (acc_last_x a <= start_index ->
              acc_last_x (gen_step a) = acc_last_x a + 1) /\
             (end_index <= acc_last_x a ->
              acc_last_x (gen_step a) = acc_last_x a - 1)).
Proof.
  split; [|split; [|split]].
  - intros Hr. apply track_ok_sound. apply (ok_track st (reachable_ok st Hr)).
  - intros Hs. apply track_ok_sound. apply _generate_tiles_coordinates_ok.
    apply track_sound_ok. exact Hs.
  - apply track_ok_sound. apply (_reset_tiles_effect st).
  - apply gen_step_forced.
Qed.

Lemma track_connected_and_in_band_witness :
  reachable Sample.row_102 /\
  track_sound (tiles_coordinates Sample.row_102) /\
  track_sound (tiles_coordinates (_generate_tiles_coordinates Sample.row_102)) /\
  acc_last_x Sample.at_left_edge <= start_index /\
  acc_last_x (gen_step Sample.at_left_edge) = acc_last_x Sample.at_left_edge + 1.
Proof.
  pose proof row_102_reachable as Hr.
  assert (He : acc_last_x Sample.at_left_edge <= start_index) by by_eval.
  destruct (track_connected_and_in_band Sample.row_102) as (A & B & _ & C).
  exact (conj Hr (conj (A Hr) (conj (B (A Hr))
           (conj He (proj1 (C Sample.at_left_edge) He))))).
Defined.

(** ** Eviction *)

Lemma evict_spec (cur : Z) (tiles : list (Z * Z)) (t : Z * Z) :
  In t (evict cur tiles) <-> In t tiles /\ cur <= snd t.
Proof.
  unfold evict. rewrite filter_In. rewrite negb_true_iff, Z.ltb_ge. tauto.
Qed.

Lemma In_existsb (t : Z * Z) (l : list (Z * Z)) :
  In t l -> existsb (coord_eqb t) l = true.
Proof.
  intros H. apply existsb_exists. exists t. split; [exact H|].
  apply coord_eqb_eq. reflexivity.
Qed.

(** C5, as stated, fails: at row 6 the tile [(0, 5)] has
    [row >= current_y_loop - 1], and the generator evicts it. *)
Lemma eviction_keeps_previous_row_counterexample :
  In (0, 5) (tiles_coordinates Sample.before_generation) /\
  current_y_loop Sample.before_generation - 1 <= snd (0, 5) /\
  ~ In (0, 5) (tiles_coordinates
                 (_generate_tiles_coordinates Sample.before_generation)).
Proof.
  split; [vm_compute; left; reflexivity|].
  split; [by_eval|].
  intros H. apply In_existsb in H. vm_compute in H. discriminate H.
Qed.

(** C5, amended. A call of the generator keeps, in their order and
    unchanged, exactly the tiles with [row >= current_y_loop], and lays the
    new tiles after them: a tile of the old track is in the new one's kept
    part exactly when its row is not below [current_y_loop]. *)
Theorem generator_evicts_and_appends (st : Game) :
  exists new,
    tiles_coordinates (_generate_tiles_coordinates st) =
    filter (fun t => current_y_loop st <=? snd t) (tiles_coordinates st) ++ new /\
    forall t, In t (filter (fun t => current_y_loop st <=? snd t) (tiles_coordinates st))
              <-> In t (tiles_coordinates st) /\ current_y_loop st <= snd t.
Proof.
  assert (Ef : filter (fun t => current_y_loop st <=? snd t) (tiles_coordinates st) =
               evict (current_y_loop st) (tiles_coordinates st)).
  { unfold evict. apply filter_ext. intros t.
    destruct (current_y_loop st <=? snd t) eqn:E1, (snd t <? current_y_loop st) eqn:E2;
      try reflexivity; lia. }
  rewrite Ef.
  destruct (_generate_tiles_coordinates_tiles st) as (lx & ly & _ & Et).
  match type of Et with _ = acc_tiles (gen_loop ?n ?a) =>
    destruct (gen_loop_appends n a) as (new & En) end.
  exists new. split.
  - rewrite Et, En. reflexivity.
  - intros t. apply evict_spec.
Qed.

